(** * MultiGrid: a fixed-shape N-dimensional bucket container

    Shallow embedding of [dire::MultiGrid<dim, Data>]
    (dire_cfd/include/multi_grid.hpp) and proofs about its constructor,
    [add], [clear], [compress], [enumerateData] and [linearize].

    Conventions (an LP64 platform).
    - [size_t] is a 64-bit unsigned integer, modelled as a [Z] in
      [0, 2^64) with the wrap-around written out ([to_size_t]).
    - [int] is a 32-bit two's complement integer; a conversion to [int]
      keeps the low 32 bits ([to_int]).
    - [std::array<size_t, dim>] is a [list Z] of length [dim]
      ([is_array]); [a[i]] for [i < dim] is [a !!! i].
    - [std::vector<T>] is a [list T]; [v[i]] is [v !! i], and an index
      outside the vector is undefined behaviour, which the operations
      report as [Undefined].  Capacity is not observable.  Running out
      of memory ([std::bad_alloc]) is outside the model;
      [std::length_error] is thrown by the constructor when [reserve] or
      [resize] is asked for more than [max_size()] elements
      ([VectorLimits]).  The size of a vector is a [size_t], so the
      theorems about sequences of calls bound their length by 2^64.
    - An exception is a [Throw] that carries the container as the throw
      leaves it. *)

From stdpp Require Import prelude.

Local Open Scope Z_scope.

(** ** Machine integers *)

Definition to_size_t (z : Z) : Z := z mod 2 ^ 64.

Definition to_int (z : Z) : Z :=
  let r := z mod 2 ^ 32 in if r <? 2 ^ 31 then r else r - 2 ^ 32.

(** [std::multiplies<size_t>]: both operands are converted to [size_t]. *)
Definition multiplies_size_t (x y : Z) : Z :=
  to_size_t (to_size_t x * to_size_t y).

(** [std::accumulate(first, last, init, op)] where [init] is the literal
    [1], so that the accumulator type [T] is deduced as [int]: every
    [init = op(init, *first)] converts the result of [op] back to [int]. *)
Definition accumulate_int (l : list Z) (init : Z) (op : Z → Z → Z) : Z :=
  fold_left (λ acc x, to_int (op acc x)) l init.

(** ** Data model *)

Abbreviation GridSize := (list Z) (only parsing).
Abbreviation CellId := (list Z) (only parsing).

Inductive Error : Set :=
  | InvalidShape   (* std::runtime_error thrown by the constructor *)
  | OutOfRange     (* std::out_of_range *)
  | NotCompressed  (* std::runtime_error thrown by enumerateData *)
  | LengthError.   (* std::length_error thrown by reserve and resize *)

Module DataBounds.
Record t : Set := mk { begin : Z; end_ : Z }.
End DataBounds.

Module RawData.
Record t (Data : Type) : Type := mk { data : list Data; cell_ids : list CellId }.
Arguments mk {Data} _ _.
Arguments data {Data} _.
Arguments cell_ids {Data} _.
End RawData.

Module CompressedData.
Record t (Data : Type) : Type := mk {
  data : list Data;
  num_data_per_cell : list Z;
  first_data_id_per_cell : list Z;
  next_data_id_per_cell_buff : list Z
}.
Arguments mk {Data} _ _ _ _.
Arguments data {Data} _.
Arguments num_data_per_cell {Data} _.
Arguments first_data_id_per_cell {Data} _.
Arguments next_data_id_per_cell_buff {Data} _.
End CompressedData.

Record MultiGrid (Data : Type) : Type := mkMultiGrid {
  grid_size_ : GridSize;
  num_cells_ : Z;
  compressed_ : bool;
  raw_data_ : RawData.t Data;
  compressed_data_ : CompressedData.t Data
}.
Arguments mkMultiGrid {Data} _ _ _ _ _.
Arguments grid_size_ {Data} _.
Arguments num_cells_ {Data} _.
Arguments compressed_ {Data} _.
Arguments raw_data_ {Data} _.
Arguments compressed_data_ {Data} _.

(** Outcome of a member function called on a container. *)
Inductive result (Data A : Type) : Type :=
  | Ret (a : A) (s : MultiGrid Data)
  | Throw (e : Error) (s : MultiGrid Data)
  | Undefined.
Arguments Ret {Data A} _ _.
Arguments Throw {Data A} _ _.
Arguments Undefined {Data A}.

(** [max_size()] of the vectors of a [MultiGrid<dim, Data>]: an
    implementation constant for each element type. *)
Class VectorLimits (Data : Type) : Type := {
  max_size_data : Z;     (* std::vector<Data>::max_size() *)
  max_size_cell_ids : Z; (* std::vector<CellId>::max_size() *)
  max_size_counts : Z    (* std::vector<size_t>::max_size() *)
}.

(** ** Operations *)

Section Operations.
Context {Data : Type} `{!VectorLimits Data}.
Variable default_data : Data. (* Data() *)
Variable dim : nat.           (* template parameter, static_assert(dim > 0) *)

(** The loop [for i < dim: if (cell_id[i] >= grid_size_[i]) throw]. *)
Definition invalid_cell_id (grid_size : GridSize) (cell_id : CellId) : bool :=
  existsb (λ i, grid_size !!! i <=? cell_id !!! i) (seq 0 dim).

Definition linearize_step (grid_size : GridSize) (cell_id : CellId)
    (acc : Z * Z) (i : nat) : Z * Z :=
  let '(storage_id, mult) := acc in
  (to_size_t (storage_id + to_size_t (cell_id !!! i * mult)),
   to_size_t (mult * grid_size !!! i)).

Definition linearize (grid_size : GridSize) (cell_id : CellId) : Z :=
  fst (fold_left (linearize_step grid_size cell_id) (seq 0 dim) (0, 1)).

(** [reserve(n)] throws [std::length_error] when [n > max_size()], and so
    does [resize(n, 0)] on an empty vector. *)
Definition MultiGrid_new (grid_size : GridSize) (buff_size : Z)
    : MultiGrid Data + Error :=
  let num_cells := to_size_t (accumulate_int grid_size 1 multiplies_size_t) in
  if existsb (λ i, grid_size !!! i =? 0) (seq 0 dim) then inr InvalidShape
  else if max_size_data <? buff_size then inr LengthError
  else if max_size_cell_ids <? buff_size then inr LengthError
  else if max_size_counts <? num_cells then inr LengthError
  else inl {|
    grid_size_ := grid_size;
    num_cells_ := num_cells;
    compressed_ := false;
    raw_data_ := RawData.mk [] [];
    compressed_data_ :=
      CompressedData.mk []
        (resize (Z.to_nat num_cells) 0 [])
        (resize (Z.to_nat num_cells) 0 [])
        (resize (Z.to_nat num_cells) 0 [])
  |}.

Definition add (cell_id : CellId) (data : Data) (s : MultiGrid Data)
    : result Data () :=
  if invalid_cell_id (grid_size_ s) cell_id then Throw OutOfRange s
  else
    let compressed := if compressed_ s then false else compressed_ s in
    Ret () {|
      grid_size_ := grid_size_ s;
      num_cells_ := num_cells_ s;
      compressed_ := compressed;
      raw_data_ :=
        RawData.mk (RawData.data (raw_data_ s) ++ [data])
                   (RawData.cell_ids (raw_data_ s) ++ [cell_id]);
      compressed_data_ := compressed_data_ s
    |}.

Definition clear (s : MultiGrid Data) : result Data () :=
  let compressed := if compressed_ s then false else compressed_ s in
  Ret () {|
    grid_size_ := grid_size_ s;
    num_cells_ := num_cells_ s;
    compressed_ := compressed;
    raw_data_ := RawData.mk [] [];
    compressed_data_ := compressed_data_ s
  |}.

(** First pass of [compress]: the range-for over [raw_data_.cell_ids]. *)
Fixpoint count_pass (grid_size : GridSize) (cell_ids : list CellId)
    (num : list Z) : option (list Z) :=
  match cell_ids with
  | [] => Some num
  | cell_id :: rest =>
      let storage_id := Z.to_nat (linearize grid_size cell_id) in
      n ← num !! storage_id;
      count_pass grid_size rest (<[storage_id := to_size_t (n + 1)]> num)
  end.

(** Second pass: [n] iterations remain, [i] is the loop counter. *)
Fixpoint prefix_pass (n i : nat) (num first : list Z)
    (first_data_id_buff : Z) : option (list Z) :=
  match n with
  | O => Some first
  | S n' =>
      _ ← first !! i;
      c ← num !! i;
      prefix_pass n' (S i) num (<[i := first_data_id_buff]> first)
                  (to_size_t (first_data_id_buff + c))
  end.

(** Third pass: [n] iterations remain, [i] is the loop counter. *)
Fixpoint scatter_pass (grid_size : GridSize) (n i : nat)
    (raw : RawData.t Data) (next : list Z) (data : list Data)
    : option (list Z * list Data) :=
  match n with
  | O => Some (next, data)
  | S n' =>
      cell_id ← RawData.cell_ids raw !! i;
      let storage_id := Z.to_nat (linearize grid_size cell_id) in
      next_data_id ← next !! storage_id;
      let next' := <[storage_id := to_size_t (next_data_id + 1)]> next in
      d ← RawData.data raw !! i;
      _ ← data !! Z.to_nat next_data_id;
      scatter_pass grid_size n' (S i) raw next'
                   (<[Z.to_nat next_data_id := d]> data)
  end.

Definition compress_buffers (s : MultiGrid Data)
    : option (CompressedData.t Data) :=
  let cd := compressed_data_ s in
  let raw := raw_data_ s in
  num ← count_pass (grid_size_ s) (RawData.cell_ids raw)
        (replicate (length (CompressedData.num_data_per_cell cd)) 0);
  first ← prefix_pass (Z.to_nat (num_cells_ s)) 0 num
        (replicate (length (CompressedData.first_data_id_per_cell cd)) 0) 0;
  let num_raw_data := length (RawData.data raw) in
  let data := resize num_raw_data default_data (CompressedData.data cd) in
  '(next, data') ← scatter_pass (grid_size_ s) num_raw_data 0 raw first data;
  Some (CompressedData.mk data' num first next).

Definition compress (s : MultiGrid Data) : result Data () :=
  if compressed_ s then Ret () s
  else
    match compress_buffers s with
    | Some cd =>
        Ret () {|
          grid_size_ := grid_size_ s;
          num_cells_ := num_cells_ s;
          compressed_ := true;
          raw_data_ := raw_data_ s;
          compressed_data_ := cd
        |}
    | None => Undefined
    end.

(** The iterators of [DataBounds] are offsets from
    [compressed_data_.data.begin()]. *)
Definition enumerateData (cell_id : CellId) (s : MultiGrid Data)
    : result Data DataBounds.t :=
  if negb (compressed_ s) then Throw NotCompressed s
  else if invalid_cell_id (grid_size_ s) cell_id then Throw OutOfRange s
  else
    let cd := compressed_data_ s in
    let storage_id := Z.to_nat (linearize (grid_size_ s) cell_id) in
    match CompressedData.first_data_id_per_cell cd !! storage_id,
          CompressedData.num_data_per_cell cd !! storage_id with
    | Some first, Some num => Ret (DataBounds.mk first (first + num)) s
    | _, _ => Undefined
    end.

End Operations.

(** ** Specification vocabulary *)

Section Specification.
Context {Data : Type} `{!VectorLimits Data}.
Variable default_data : Data.
Variable dim : nat.

(** The cell count [C] of a grid: the product of its sizes, as an
    integer. *)
Definition product (g : list Z) : Z := foldr Z.mul 1 g.

(** The product of the sizes before dimension [i]. *)
Definition weight (grid_size : GridSize) (i : nat) : Z :=
  product (take i grid_size).

(** The sum of [c_i * prod_{j<i} n_j] over the first [n] dimensions. *)
Definition partial_index (grid_size : GridSize) (cell_id : CellId)
    (n : nat) : Z :=
  foldr Z.add 0 ((λ i, cell_id !!! i * weight grid_size i) <$> seq 0 n).

(** The linearization as the specification words it: the sum of
    [c_i * prod_{j<i} n_j] over all dimensions, as an integer. *)
Definition linear_index (grid_size : GridSize) (cell_id : CellId) : Z :=
  partial_index grid_size cell_id dim.

(** A [GridSize] with every component at least 1. *)
Definition valid_grid_size (grid_size : GridSize) : Prop :=
  length grid_size = dim ∧ Forall (λ n, 1 ≤ n < 2 ^ 64) grid_size.

(** A [CellId] in range: [0 <= c_i < n_i] in every dimension. *)
Definition valid_cell_id (grid_size : GridSize) (cell_id : CellId) : Prop :=
  Forall2 (λ c n, 0 ≤ c < n) cell_id grid_size.

(** The cell id with linear index [s]: its mixed-radix digits. *)
Definition delinearize (grid_size : GridSize) (s : Z) : CellId :=
  (λ i, (s `div` weight grid_size i) `mod` (grid_size !!! i)) <$> seq 0 dim.

(** Index of the per-cell arrays used for a cell. *)
Definition storage_id (grid_size : GridSize) (cell_id : CellId) : nat :=
  Z.to_nat (linearize dim grid_size cell_id).

(** The raw buffer as the sequence of [(cell_id, item)] pairs added. *)
Definition raw_pairs (raw : RawData.t Data) : list (CellId * Data) :=
  zip (RawData.cell_ids raw) (RawData.data raw).

(** The items of [pairs] stored under index [k], in insertion order. *)
Definition bucket (grid_size : GridSize) (k : nat)
    (pairs : list (CellId * Data)) : list Data :=
  (filter (λ p, storage_id grid_size p.1 = k) pairs).*2.

(** The items of [pairs] added with cell id [cell_id], in insertion order. *)
Definition items_of (cell_id : CellId) (pairs : list (CellId * Data))
    : list Data :=
  (filter (λ p, p.1 = cell_id) pairs).*2.

Definition sum_list (l : list Z) : Z := foldr Z.add 0 l.

(** The slice [data[first[k] .. first[k] + num[k])] of the compressed
    array. *)
Definition segment (cd : CompressedData.t Data) (k : nat) : list Data :=
  take (Z.to_nat (CompressedData.num_data_per_cell cd !!! k))
    (drop (Z.to_nat (CompressedData.first_data_id_per_cell cd !!! k))
       (CompressedData.data cd)).

(** The items a [DataBounds] ranges over. *)
Definition view (cd : CompressedData.t Data) (b : DataBounds.t) : list Data :=
  take (Z.to_nat (DataBounds.end_ b - DataBounds.begin b))
    (drop (Z.to_nat (DataBounds.begin b)) (CompressedData.data cd)).

(** A [std::array<size_t, dim>]. *)
Definition is_array (a : list Z) : Prop :=
  length a = dim ∧ Forall (λ x, 0 ≤ x < 2 ^ 64) a.

(** The stored cell count is the product of the grid sizes. *)
Definition exact_cells (s : MultiGrid Data) : Prop :=
  num_cells_ s = product (grid_size_ s).

(** *** Sequences of calls *)

Inductive op : Type :=
  | Add (cell_id : CellId) (data : Data)
  | Clear
  | Compress
  | EnumerateData (cell_id : CellId).

Definition op_typed (o : op) : Prop :=
  match o with
  | Add cell_id _ | EnumerateData cell_id => is_array cell_id
  | Clear | Compress => True
  end.

(** The container after a call, whether it returned or threw. *)
Definition state_after {A} (r : result Data A) : option (MultiGrid Data) :=
  match r with
  | Ret _ s | Throw _ s => Some s
  | Undefined => None
  end.

Definition call (o : op) (s : MultiGrid Data) : option (MultiGrid Data) :=
  match o with
  | Add cell_id data => state_after (add dim cell_id data s)
  | Clear => state_after (clear s)
  | Compress => state_after (compress default_data dim s)
  | EnumerateData cell_id => state_after (enumerateData dim cell_id s)
  end.

Fixpoint run (ops : list op) (s : MultiGrid Data) : option (MultiGrid Data) :=
  match ops with
  | [] => Some s
  | o :: ops' => s' ← call o s; run ops' s'
  end.

(** [s] is the container obtained by constructing a grid of shape
    [grid_size] and making the calls [ops] in order. *)
Definition history (grid_size : GridSize) (ops : list op)
    (s : MultiGrid Data) : Prop :=
  ∃ buff_size s0,
    MultiGrid_new dim grid_size buff_size = inl s0 ∧ run ops s0 = Some s.

(** A call that changes the raw buffer: [clear], or an [add] whose cell id
    passes validation. *)
Definition mutating (grid_size : GridSize) (o : op) : bool :=
  match o with
  | Add cell_id _ => negb (invalid_cell_id dim grid_size cell_id)
  | Clear => true
  | Compress | EnumerateData _ => false
  end.

(** Some [compress] was called and no mutating call followed it. *)
Definition compressed_after (grid_size : GridSize) (ops : list op) : Prop :=
  ∃ pre post,
    ops = pre ++ Compress :: post
    ∧ Forall (λ o, mutating grid_size o = false) post.

(** A run of [add] calls that all return. *)
Fixpoint add_all (adds : list (CellId * Data)) (s : MultiGrid Data)
    : result Data () :=
  match adds with
  | [] => Ret () s
  | (cell_id, data) :: adds' =>
      match add dim cell_id data s with
      | Ret _ s' => add_all adds' s'
      | r => r
      end
  end.

(** *** Invariants *)

(** The CSR invariants of the compressed buffer. *)
Definition csr (s : MultiGrid Data) : Prop :=
  let cd := compressed_data_ s in
  let num := CompressedData.num_data_per_cell cd in
  let first := CompressedData.first_data_id_per_cell cd in
  length num = Z.to_nat (num_cells_ s)
  ∧ length first = Z.to_nat (num_cells_ s)
  ∧ sum_list num = Z.of_nat (length (RawData.data (raw_data_ s)))
  ∧ length (CompressedData.data cd) = length (RawData.data (raw_data_ s))
  ∧ ∀ c, (c < Z.to_nat (num_cells_ s))%nat →
      first !! c = Some (sum_list (take c num)).

(** The compressed buffer mirrors the raw buffer. *)
Definition mirrors (s : MultiGrid Data) : Prop :=
  let cd := compressed_data_ s in
  let pairs := raw_pairs (raw_data_ s) in
  csr s
  ∧ ∀ k, (k < Z.to_nat (num_cells_ s))%nat →
      CompressedData.num_data_per_cell cd !! k
        = Some (Z.of_nat (length (bucket (grid_size_ s) k pairs)))
      ∧ segment cd k = bucket (grid_size_ s) k pairs.

(** Class invariant of a container whose cell count is exact. *)
Record wf (s : MultiGrid Data) : Prop := {
  wf_grid : valid_grid_size (grid_size_ s);
  wf_exact : exact_cells s;
  wf_cells : 0 ≤ num_cells_ s < 2 ^ 64;
  wf_num :
    length (CompressedData.num_data_per_cell (compressed_data_ s))
    = Z.to_nat (num_cells_ s);
  wf_first :
    length (CompressedData.first_data_id_per_cell (compressed_data_ s))
    = Z.to_nat (num_cells_ s);
  wf_raw_length :
    length (RawData.cell_ids (raw_data_ s))
    = length (RawData.data (raw_data_ s));
  wf_raw_fits : Z.of_nat (length (RawData.data (raw_data_ s))) < 2 ^ 64;
  wf_raw_valid :
    Forall (valid_cell_id (grid_size_ s)) (RawData.cell_ids (raw_data_ s));
  wf_mirrors : compressed_ s = true → mirrors s
}.

(** Loop invariant of the scatter pass after [i] raw entries: [next[k]]
    is the first free slot of bucket [k], and the slots already filled
    hold the bucket's items in insertion order. *)
Definition scatter_inv (grid_size : GridSize) (pairs : list (CellId * Data))
    (num : list Z) (i : nat) (next : list Z) (dat : list Data) : Prop :=
  length next = length num
  ∧ length dat = length pairs
  ∧ (∀ k, (k < length num)%nat →
       next !! k
       = Some (sum_list (take k num)
               + Z.of_nat (length (bucket grid_size k (take i pairs)))))
  ∧ (∀ k j, (k < length num)%nat →
       (j < length (bucket grid_size k (take i pairs)))%nat →
       dat !! (Z.to_nat (sum_list (take k num)) + j)%nat
       = bucket grid_size k (take i pairs) !! j).

End Specification.


Section Shape.
Context {Data : Type} `{!VectorLimits Data}.
Variable dim : nat.

(** What every constructed container keeps, whatever its cell count: the
    per-cell arrays have [num_cells_] entries, the raw sequences go in
    pairs, and a set flag means the compressed buffer mirrors the raw
    one. *)
Record shaped (s : MultiGrid Data) : Prop := {
  shaped_num :
    length (CompressedData.num_data_per_cell (compressed_data_ s))
    = Z.to_nat (num_cells_ s);
  shaped_first :
    length (CompressedData.first_data_id_per_cell (compressed_data_ s))
    = Z.to_nat (num_cells_ s);
  shaped_raw_length :
    length (RawData.cell_ids (raw_data_ s))
    = length (RawData.data (raw_data_ s));
  shaped_raw_fits : Z.of_nat (length (RawData.data (raw_data_ s))) < 2 ^ 64;
  shaped_mirrors : compressed_ s = true → mirrors dim s
}.

(** Every buffered cell id has its storage id inside the per-cell
    arrays. *)
Definition in_bounds (s : MultiGrid Data) : Prop :=
  Forall
    (λ c, (storage_id dim (grid_size_ s) c
           < length (CompressedData.num_data_per_cell (compressed_data_ s)))%nat)
    (RawData.cell_ids (raw_data_ s)).

(** The pairs a sequence of calls leaves in the raw buffer: an [add]
    whose cell id passes validation appends its pair, [clear] drops
    them all. *)
Definition buffer_step (grid_size : GridSize) (pairs : list (CellId * Data))
    (o : op) : list (CellId * Data) :=
  match o with
  | Add cell_id data =>
      if invalid_cell_id dim grid_size cell_id then pairs
      else pairs ++ [(cell_id, data)]
  | Clear => []
  | Compress | EnumerateData _ => pairs
  end.

Definition buffered (grid_size : GridSize) (ops : list op)
    : list (CellId * Data) :=
  fold_left (buffer_step grid_size) ops [].

End Shape.

(** ** Example containers

    Items are integers and [Data()] is [0].  [basic_*] is a 2 x 2 grid
    with four items; [huge_*], [square_*] and [wrapped_*] are grids with
    more cells than [size_t] can count. *)

(** The limits of libstdc++ on LP64, [PTRDIFF_MAX / sizeof(T)], for items
    of 8 bytes and cell ids of two coordinates. *)
#[export] Instance example_limits : VectorLimits Z := {|
  max_size_data := 2 ^ 60 - 1;
  max_size_cell_ids := 2 ^ 59 - 1;
  max_size_counts := 2 ^ 60 - 1
|}.

Definition empty_container : MultiGrid Z :=
  mkMultiGrid [] 0 false (RawData.mk [] []) (CompressedData.mk [] [] [] []).

Definition constructed (dim : nat) (grid_size : GridSize) : MultiGrid Z :=
  match MultiGrid_new dim grid_size 0 with
  | inl s => s
  | inr _ => empty_container
  end.

Definition returned {A} (r : result Z A) : MultiGrid Z :=
  match r with
  | Ret _ s => s
  | _ => empty_container
  end.

Definition basic_grid : GridSize := [2; 2].

Definition basic_adds : list (CellId * Z) :=
  [([0; 0], 10); ([1; 0], 20); ([0; 0], 11); ([1; 1], 30)].

Definition basic_ops : list (op (Data:=Z)) :=
  (λ p, Add p.1 p.2) <$> basic_adds.

Definition basic_new : MultiGrid Z :=
  Eval vm_compute in constructed 2 basic_grid.

Definition basic_raw : MultiGrid Z :=
  Eval vm_compute in returned (add_all 2 basic_adds basic_new).

Definition basic_compressed : MultiGrid Z :=
  Eval vm_compute in returned (compress 0 2 basic_raw).

(** 2^63 * 4 = 2^65 cells: the stored cell count is 0. *)
Definition huge_grid : GridSize := [2 ^ 63; 4].

Definition huge_new : MultiGrid Z :=
  Eval vm_compute in constructed 2 huge_grid.

(** 2^32 * 2^32 = 2^64 cells: the stored cell count is 0. *)
Definition square_grid : GridSize := [2 ^ 32; 2 ^ 32].

Definition square_new : MultiGrid Z :=
  Eval vm_compute in constructed 2 square_grid.

(** (2^63 + 1) * 2 = 2^64 + 2 cells: the stored cell count is 2. *)
Definition wrapped_grid : GridSize := [2 ^ 63 + 1; 2].

Definition wrapped_adds : list (CellId * Z) :=
  [([1; 0], 10); ([2 ^ 63; 1], 20)].

Definition wrapped_new : MultiGrid Z :=
  Eval vm_compute in constructed 2 wrapped_grid.

Definition wrapped_raw : MultiGrid Z :=
  Eval vm_compute in returned (add_all 2 wrapped_adds wrapped_new).

Definition wrapped_compressed : MultiGrid Z :=
  Eval vm_compute in returned (compress 0 2 wrapped_raw).

(** 65536 * 65536 = 2^32 cells. *)
Definition int_overflow_grid : GridSize := [65536; 65536].

Definition basic_added : MultiGrid Z :=
  Eval vm_compute in returned (add 2 [0; 1] 7 basic_compressed).

Definition huge_raw : MultiGrid Z :=
  Eval vm_compute in returned (add 2 [0; 0] 7 huge_new).

Definition huge_compressed : MultiGrid Z :=
  Eval vm_compute in returned (compress 0 2 huge_new).

Definition square_raw : MultiGrid Z :=
  Eval vm_compute in returned (add 2 [1; 1] 7 square_new).

Definition basic_cleared : MultiGrid Z :=
  Eval vm_compute in returned (clear basic_compressed).

Definition wrapped_ops : list (op (Data:=Z)) :=
  (λ p, Add p.1 p.2) <$> wrapped_adds.

Definition int_overflow_new : MultiGrid Z :=
  Eval vm_compute in constructed 2 int_overflow_grid.

(** * Proofs *)

(** ** Linearization *)

Section Linearize.
Variable dim : nat.
Implicit Types (g c : list Z) (i : nat).

Lemma to_size_t_small z : 0 ≤ z < 2 ^ 64 → to_size_t z = z.
Proof. intros. unfold to_size_t. by apply Z.mod_small. Qed.

Lemma to_size_t_range z : 0 ≤ to_size_t z < 2 ^ 64.
Proof. unfold to_size_t. apply Z.mod_pos_bound. lia. Qed.

Lemma product_app g1 g2 : product (g1 ++ g2) = product g1 * product g2.
Proof. unfold product. induction g1 as [|x g1 IH]; simpl; [lia|]. rewrite IH. lia. Qed.

Lemma product_pos g : Forall (λ n, 1 ≤ n < 2 ^ 64) g → 1 ≤ product g.
Proof. unfold product. induction 1 as [|x g' Hx _ IH]; simpl; [done|]. nia. Qed.

Lemma weight_S g i : (i < length g)%nat → weight g (S i) = weight g i * g !!! i.
Proof.
  intros Hi. destruct (lookup_lt_is_Some_2 g i Hi) as [x Hx].
  unfold weight. rewrite (take_S_r _ _ _ Hx), product_app.
  rewrite (list_lookup_total_correct _ _ _ Hx). unfold product. simpl. lia.
Qed.

Lemma grid_size_lookup g i :
  Forall (λ n, 1 ≤ n < 2 ^ 64) g → (i < length g)%nat → 1 ≤ g !!! i < 2 ^ 64.
Proof.
  intros Hg Hi.
  by apply (proj1 (Forall_lookup_total (λ n, 1 ≤ n < 2 ^ 64) g) Hg i Hi).
Qed.

Lemma weight_all g : weight g (length g) = product g.
Proof. unfold weight. by rewrite take_ge. Qed.

Lemma weight_bounds g i :
  Forall (λ n, 1 ≤ n < 2 ^ 64) g → 1 ≤ weight g i ≤ product g.
Proof.
  intros Hg. unfold weight. rewrite <- (take_drop i g) at 3. rewrite product_app.
  rewrite <- (take_drop i g) in Hg. apply Forall_app in Hg as [H1 H2].
  apply product_pos in H1, H2. nia.
Qed.

Lemma partial_index_S g c n :
  partial_index g c (S n) = partial_index g c n + c !!! n * weight g n.
Proof.
  unfold partial_index. rewrite seq_S, fmap_app, foldr_app. simpl.
  generalize ((λ i, c !!! i * weight g i) <$> seq 0 n) as l.
  generalize (c !!! n * weight g n) as x. intros x l.
  induction l as [|y l IH]; simpl; lia.
Qed.

Lemma valid_cell_id_length g c : valid_cell_id g c → length c = length g.
Proof. apply Forall2_length. Qed.

Lemma valid_cell_id_lookup g c i :
  valid_cell_id g c → (i < length g)%nat → 0 ≤ c !!! i < g !!! i.
Proof.
  intros Hc Hi. pose proof (valid_cell_id_length _ _ Hc) as Hlen.
  apply (Forall2_lookup_lr (λ x y : Z, 0 ≤ x < y) c g i _ _ Hc);
    apply list_lookup_lookup_total_lt; lia.
Qed.

Lemma partial_index_bounds g c n :
  Forall (λ n, 1 ≤ n < 2 ^ 64) g → valid_cell_id g c → (n ≤ length g)%nat →
  0 ≤ partial_index g c n < weight g n.
Proof.
  intros Hg Hc. induction n as [|n IH]; intros Hn.
  - by compute.
  - rewrite partial_index_S, weight_S by lia.
    pose proof (valid_cell_id_lookup g c n Hc ltac:(lia)).
    pose proof (weight_bounds g n Hg). nia.
Qed.

(** Loop invariant of [linearize]: after [n] iterations, [storage_id] is
    the partial sum and [mult] the partial product (as a [size_t]). *)
Lemma linearize_loop g c n :
  Forall (λ n, 1 ≤ n < 2 ^ 64) g → valid_cell_id g c → product g ≤ 2 ^ 64 →
  (n ≤ length g)%nat →
  fold_left (linearize_step g c) (seq 0 n) (0, 1)
  = (partial_index g c n, to_size_t (weight g n)).
Proof.
  intros Hg Hc Hfit. induction n as [|n IH]; intros Hn; [done|].
  rewrite seq_S, fold_left_app, IH by lia. simpl.
  pose proof (valid_cell_id_lookup g c n Hc ltac:(lia)).
  pose proof (weight_bounds g n Hg).
  pose proof (weight_bounds g (S n) Hg).
  pose proof (partial_index_bounds g c n Hg Hc ltac:(lia)).
  pose proof (partial_index_bounds g c (S n) Hg Hc ltac:(lia)) as HS.
  rewrite partial_index_S in *. rewrite weight_S in * by lia.
  f_equal.
  - assert (to_size_t (c !!! n * to_size_t (weight g n)) = c !!! n * weight g n)
      as ->.
    { destruct (decide (weight g n < 2 ^ 64)).
      - rewrite (to_size_t_small (weight g n)) by lia.
        apply to_size_t_small. nia.
      - assert (c !!! n = 0) as -> by nia. done. }
    apply to_size_t_small. nia.
  - unfold to_size_t. by rewrite Z.mul_mod_idemp_l.
Qed.

Lemma linearize_exact g c :
  valid_grid_size dim g → valid_cell_id g c → product g ≤ 2 ^ 64 →
  linearize dim g c = linear_index dim g c.
Proof.
  intros [Hlen Hg] Hc Hfit. unfold linearize, linear_index.
  by rewrite linearize_loop by (done || lia).
Qed.

Lemma linear_index_bounds g c :
  valid_grid_size dim g → valid_cell_id g c →
  0 ≤ linear_index dim g c < product g.
Proof.
  intros [Hlen Hg] Hc. unfold linear_index. rewrite <- (weight_all g), Hlen.
  apply partial_index_bounds; [done..|lia].
Qed.

Lemma partial_index_inj g c c' n :
  Forall (λ n, 1 ≤ n < 2 ^ 64) g → valid_cell_id g c → valid_cell_id g c' →
  (n ≤ length g)%nat →
  partial_index g c n = partial_index g c' n →
  ∀ i, (i < n)%nat → c !!! i = c' !!! i.
Proof.
  intros Hg Hc Hc'. induction n as [|n IH]; intros Hn Heq i Hi; [lia|].
  rewrite !partial_index_S in Heq.
  pose proof (partial_index_bounds g c n Hg Hc ltac:(lia)).
  pose proof (partial_index_bounds g c' n Hg Hc' ltac:(lia)).
  pose proof (valid_cell_id_lookup g c n Hc ltac:(lia)).
  pose proof (valid_cell_id_lookup g c' n Hc' ltac:(lia)).
  assert (c !!! n = c' !!! n) as Hn' by nia.
  destruct (decide (i = n)) as [->|]; [done|].
  apply IH; [lia| |lia]. rewrite Hn' in Heq. lia.
Qed.

Lemma linear_index_inj g c c' :
  valid_grid_size dim g → valid_cell_id g c → valid_cell_id g c' →
  linear_index dim g c = linear_index dim g c' → c = c'.
Proof.
  intros [Hlen Hg] Hc Hc' Heq.
  pose proof (valid_cell_id_length _ _ Hc) as Hl.
  pose proof (valid_cell_id_length _ _ Hc') as Hl'.
  apply list_eq. intros i. destruct (decide (i < dim)%nat).
  - rewrite !list_lookup_lookup_total_lt by lia. f_equal.
    apply (partial_index_inj g c c' dim); (done || lia).
  - rewrite !lookup_ge_None_2 by lia. done.
Qed.

Lemma delinearize_lookup g s i :
  (i < dim)%nat →
  delinearize dim g s !!! i = (s `div` weight g i) `mod` (g !!! i).
Proof.
  intros Hi. apply list_lookup_total_correct. unfold delinearize.
  by rewrite list_lookup_fmap, lookup_seq_lt.
Qed.

Lemma delinearize_valid g s :
  valid_grid_size dim g → valid_cell_id g (delinearize dim g s).
Proof.
  intros [Hlen Hg]. apply Forall2_same_length_lookup_2.
  - unfold delinearize. by rewrite length_fmap, length_seq.
  - intros i x y Hx Hy. pose proof (lookup_lt_Some _ _ _ Hy) as Hi.
    apply list_lookup_total_correct in Hx. subst x.
    rewrite delinearize_lookup by lia.
    rewrite (list_lookup_total_correct _ _ _ Hy).
    apply Z.mod_pos_bound.
    pose proof (proj1 (Forall_lookup _ _) Hg i y Hy). simpl in *. lia.
Qed.

Lemma delinearize_partial_index g s n :
  valid_grid_size dim g → (n ≤ dim)%nat →
  partial_index g (delinearize dim g s) n = s `mod` weight g n.
Proof.
  intros [Hlen Hg]. induction n as [|n IH]; intros Hn.
  - by rewrite Z.mod_1_r.
  - rewrite partial_index_S, IH, weight_S, delinearize_lookup by lia.
    pose proof (weight_bounds g n Hg).
    pose proof (grid_size_lookup g n Hg ltac:(lia)).
    rewrite Z.rem_mul_r by lia. lia.
Qed.

Lemma delinearize_linear_index g s :
  valid_grid_size dim g → 0 ≤ s < product g →
  linear_index dim g (delinearize dim g s) = s.
Proof.
  intros Hg Hs. unfold linear_index.
  rewrite delinearize_partial_index by (done || lia).
  destruct Hg as [Hlen Hg]. rewrite <- Hlen, weight_all.
  by apply Z.mod_small.
Qed.

End Linearize.
(** ** The cell count computed by the constructor *)

Section Constructor.
Context {Data : Type}.
Variable dim : nat.
Implicit Types (g : list Z) (s : MultiGrid Data).

Lemma to_int_congr a b : a `mod` 2 ^ 32 = b `mod` 2 ^ 32 → to_int a = to_int b.
Proof. unfold to_int. by intros ->. Qed.

Lemma to_int_mod a : to_int a `mod` 2 ^ 32 = a `mod` 2 ^ 32.
Proof. unfold to_int. case_match; Z.div_mod_to_equations; lia. Qed.

Lemma to_size_t_mod_int a : to_size_t a `mod` 2 ^ 32 = a `mod` 2 ^ 32.
Proof. unfold to_size_t. Z.div_mod_to_equations. lia. Qed.

(** The [int] accumulator keeps only the low 32 bits of the product. *)
Lemma accumulate_int_multiplies g a :
  accumulate_int g (to_int a) multiplies_size_t = to_int (a * product g).
Proof.
  revert a. unfold accumulate_int, product.
  induction g as [|x g IH]; intros a; simpl.
  - by rewrite Z.mul_1_r.
  - rewrite IH. apply to_int_congr.
    rewrite Z.mul_assoc, <- (Zmult_mod_idemp_l (a * x)), <- Zmult_mod_idemp_l.
    f_equal. f_equal. unfold multiplies_size_t.
    rewrite to_size_t_mod_int, Zmult_mod, !to_size_t_mod_int, to_int_mod.
    by rewrite <- Zmult_mod.
Qed.

Lemma num_cells_eq g :
  to_size_t (accumulate_int g 1 multiplies_size_t)
  = to_size_t (to_int (product g)).
Proof.
  change 1 with (to_int 1) at 1. rewrite accumulate_int_multiplies.
  by rewrite Z.mul_1_l.
Qed.

Lemma num_cells_small g :
  0 ≤ product g < 2 ^ 31 →
  to_size_t (accumulate_int g 1 multiplies_size_t) = product g.
Proof.
  intros Hp. rewrite num_cells_eq. unfold to_int.
  rewrite Z.mod_small by lia.
  destruct (Z.ltb_spec (product g) (2 ^ 31)); [|lia].
  apply to_size_t_small. lia.
Qed.

End Constructor.
(** ** The three passes of [compress] *)

Section Passes.
Context {Data : Type}.
Variable dim : nat.
Variable g : list Z.
Implicit Types (P : list (list Z * Data)) (num first next : list Z) (k i j : nat).

Local Abbreviation sid := (storage_id dim g).
Local Abbreviation cnt k P := (length (bucket (Data:=Data) dim g k P)).

Lemma sum_list_app l1 l2 : sum_list (l1 ++ l2) = sum_list l1 + sum_list l2.
Proof. unfold sum_list. induction l1 as [|x l1 IH]; simpl; lia. Qed.

Lemma sum_list_insert l i x y :
  l !! i = Some x → sum_list (<[i := y]> l) = sum_list l + (y - x).
Proof.
  revert i. induction l as [|z l IH]; intros [|i] Hi; simplify_eq/=.
  - unfold sum_list. simpl. lia.
  - rewrite (IH i Hi). unfold sum_list. simpl. lia.
Qed.

Lemma sum_list_nonneg l : Forall (λ x, 0 ≤ x) l → 0 ≤ sum_list l.
Proof. unfold sum_list. induction 1; simpl; lia. Qed.

Lemma sum_list_lookup_le l i x :
  Forall (λ x, 0 ≤ x) l → l !! i = Some x → 0 ≤ x ≤ sum_list l.
Proof.
  intros Hl. revert i. induction Hl as [|z l Hz Hl IH]; intros [|i] Hi; simplify_eq/=.
  - apply sum_list_nonneg in Hl. unfold sum_list in *. simpl. lia.
  - specialize (IH i Hi). unfold sum_list in *. simpl. lia.
Qed.

Lemma sum_list_replicate n : sum_list (replicate n 0) = 0.
Proof. unfold sum_list. induction n; simpl; lia. Qed.

Lemma sum_list_take_S l k x :
  l !! k = Some x → sum_list (take (S k) l) = sum_list (take k l) + x.
Proof.
  intros Hk. rewrite (take_S_r _ _ _ Hk), sum_list_app.
  unfold sum_list. simpl. lia.
Qed.

Lemma sum_list_take_mono l k k' :
  Forall (λ x, 0 ≤ x) l → (k ≤ k')%nat →
  sum_list (take k l) ≤ sum_list (take k' l).
Proof.
  intros Hl Hk. rewrite <- (take_drop k (take k' l)), sum_list_app.
  rewrite take_take, Nat.min_l by done.
  assert (0 ≤ sum_list (drop k (take k' l))); [|lia].
  by apply sum_list_nonneg, Forall_drop, Forall_take.
Qed.

Lemma bucket_nil k : bucket (Data:=Data) dim g k [] = [].
Proof. done. Qed.

Lemma bucket_app k P1 P2 : bucket dim g k (P1 ++ P2) = bucket dim g k P1 ++ bucket dim g k P2.
Proof. unfold bucket. by rewrite filter_app, fmap_app. Qed.

Lemma bucket_cons k c d P :
  bucket dim g k ((c, d) :: P)
  = if decide (sid c = k) then d :: bucket dim g k P else bucket dim g k P.
Proof. unfold bucket. rewrite filter_cons. simpl. by case_decide. Qed.

Lemma sum_list_take_le l k :
  Forall (λ x, 0 ≤ x) l → sum_list (take k l) ≤ sum_list l.
Proof.
  intros Hl. destruct (decide (k ≤ length l)%nat).
  - rewrite <- (take_ge l (length l)) at 2 by done.
    by apply sum_list_take_mono.
  - rewrite take_ge by lia. done.
Qed.

(** Count pass: every entry grows by the number of raw entries that fall
    into it, and no counter wraps. *)
Lemma count_pass_spec P num :
  (∀ p, p ∈ P → (sid p.1 < length num)%nat) →
  Forall (λ x, 0 ≤ x) num →
  sum_list num + Z.of_nat (length P) < 2 ^ 64 →
  ∃ num', count_pass dim g P.*1 num = Some num'
    ∧ length num' = length num
    ∧ Forall (λ x, 0 ≤ x) num'
    ∧ (∀ k x, num !! k = Some x → num' !! k = Some (x + Z.of_nat (cnt k P)))
    ∧ sum_list num' = sum_list num + Z.of_nat (length P).
Proof.
  revert num. induction P as [|[c d] P IH]; intros num Hsid Hnn Hsum.
  - exists num. simpl. split_and!; [done..| |lia].
    intros k x ->. f_equal. lia.
  - simpl. change (Z.to_nat (linearize dim g c)) with (sid c).
    destruct (lookup_lt_is_Some_2 num (sid c)) as [n Hn].
    { apply (Hsid (c, d)). by left. }
    rewrite Hn. simpl.
    pose proof (sum_list_lookup_le _ _ _ Hnn Hn).
    rewrite to_size_t_small by (simpl in Hsum; lia).
    destruct (IH (<[sid c := n + 1]> num)) as (num' & Hrun & Hlen & Hnn' & Hk & Hs).
    { intros p Hp. rewrite length_insert. apply Hsid. by right. }
    { apply Forall_insert; [done|lia]. }
    { rewrite (sum_list_insert _ _ _ _ Hn). simpl in Hsum. lia. }
    exists num'. rewrite length_insert in Hlen.
    rewrite (sum_list_insert _ _ _ _ Hn) in Hs.
    split_and!; [exact Hrun|done..| |simpl; lia].
    intros k x Hx. rewrite bucket_cons. case_decide as Hc.
    + subst k. rewrite Hn in Hx. simplify_eq.
      rewrite (Hk (sid c) (x + 1)); [f_equal; simpl; lia|].
      apply list_lookup_insert_eq. by eapply lookup_lt_Some.
    + rewrite (Hk k x); [done|]. by rewrite list_lookup_insert_ne.
Qed.

(** Prefix pass: [first[k]] is the sum of the counts before [k]. *)
Lemma prefix_pass_spec num n i first :
  length first = length num → (i + n = length num)%nat →
  Forall (λ x, 0 ≤ x) num → sum_list num < 2 ^ 64 →
  (∀ k, (k < i)%nat → first !! k = Some (sum_list (take k num))) →
  ∃ first', prefix_pass n i num first (sum_list (take i num)) = Some first'
    ∧ length first' = length num
    ∧ ∀ k, (k < length num)%nat → first' !! k = Some (sum_list (take k num)).
Proof.
  intros Hlen Hin Hnn Hsum. revert i first Hlen Hin.
  induction n as [|n IH]; intros i first Hlen Hin Hdone; simpl.
  - exists first. split_and!; [done..|]. intros k Hk. apply Hdone. lia.
  - destruct (lookup_lt_is_Some_2 first i) as [? ->]; [lia|].
    destruct (lookup_lt_is_Some_2 num i) as [c Hc]; [lia|].
    rewrite Hc. simpl.
    pose proof (sum_list_take_S _ _ _ Hc) as HS.
    pose proof (sum_list_take_le num (S i) Hnn).
    pose proof (sum_list_nonneg (take (S i) num) ltac:(by apply Forall_take)).
    rewrite to_size_t_small, <- HS by lia.
    apply IH; [by rewrite length_insert|lia|].
    intros k Hk. destruct (decide (k = i)) as [->|].
    + apply list_lookup_insert_eq. lia.
    + rewrite list_lookup_insert_ne by done. apply Hdone. lia.
Qed.

Lemma bucket_take_le k P i : (cnt k (take i P) ≤ cnt k P)%nat.
Proof.
  rewrite <- (take_drop i P) at 2. rewrite bucket_app, length_app. lia.
Qed.

Lemma bucket_take_S k P i c d :
  P !! i = Some (c, d) →
  bucket dim g k (take (S i) P)
  = bucket dim g k (take i P) ++ (if decide (sid c = k) then [d] else []).
Proof.
  intros Hi. rewrite (take_S_r _ _ _ Hi), bucket_app, bucket_cons, bucket_nil.
  done.
Qed.

Section Scatter.
Variable P : list (list Z * Data).
Variable raw : RawData.t Data.
Variables num first : list Z.
Hypothesis raw_cell_ids : RawData.cell_ids raw = P.*1.
Hypothesis raw_data : RawData.data raw = P.*2.
Hypothesis sid_bound : ∀ p, p ∈ P → (sid p.1 < length num)%nat.
Hypothesis length_first : length first = length num.
Hypothesis num_spec :
  ∀ k, (k < length num)%nat → num !! k = Some (Z.of_nat (cnt k P)).
Hypothesis first_spec :
  ∀ k, (k < length num)%nat → first !! k = Some (sum_list (take k num)).
Hypothesis sum_num : sum_list num = Z.of_nat (length P).
Hypothesis size_fits : Z.of_nat (length P) < 2 ^ 64.

Local Abbreviation F k := (sum_list (take k num)).

Lemma num_nonneg : Forall (λ x, 0 ≤ x) num.
Proof.
  apply Forall_lookup. intros k x Hx.
  rewrite num_spec in Hx by (by eapply lookup_lt_Some). simplify_eq. lia.
Qed.

Lemma F_nonneg k : 0 ≤ F k.
Proof. apply sum_list_nonneg, Forall_take, num_nonneg. Qed.

Lemma F_S k : (k < length num)%nat → F (S k) = F k + Z.of_nat (cnt k P).
Proof. intros Hk. apply sum_list_take_S. by apply num_spec. Qed.

Lemma F_next_le k k' :
  (k < k')%nat → (k < length num)%nat → F k + Z.of_nat (cnt k P) ≤ F k'.
Proof.
  intros Hk Hlen. rewrite <- F_S by done.
  apply sum_list_take_mono; [apply num_nonneg|lia].
Qed.

Lemma F_end_le k : (k < length num)%nat → F k + Z.of_nat (cnt k P) ≤ Z.of_nat (length P).
Proof.
  intros Hlen. rewrite <- F_S, <- sum_num by done.
  apply sum_list_take_le, num_nonneg.
Qed.

Local Abbreviation scatter_inv := (scatter_inv dim g P num).

Lemma scatter_pass_spec n i next dat :
  scatter_inv i next dat → (i + n = length P)%nat →
  ∃ next' dat', scatter_pass dim g n i raw next dat = Some (next', dat')
    ∧ scatter_inv (length P) next' dat'.
Proof.
  revert i next dat. induction n as [|n IH]; intros i next dat Hinv Hin.
  - exists next, dat. split; [done|]. by replace (length P) with i by lia.
  - destruct Hinv as (Hlnext & Hldat & Hnext & Hdat).
    destruct (lookup_lt_is_Some_2 P i) as [[c d] Hi]; [lia|].
    assert (sid c < length num)%nat as Hs.
    { apply (sid_bound (c, d)). by eapply list_elem_of_lookup_2. }
    pose proof (bucket_take_S (sid c) P i c d Hi) as Hb.
    rewrite decide_True in Hb by done.
    pose proof (bucket_take_le (sid c) P (S i)) as Hle.
    rewrite Hb, length_app in Hle. simpl in Hle.
    pose proof (F_end_le (sid c) Hs). pose proof (F_nonneg (sid c)).
    set (next_id := F (sid c) + Z.of_nat (cnt (sid c) (take i P))).
    assert (Z.to_nat next_id = (Z.to_nat (F (sid c)) + cnt (sid c) (take i P))%nat)
      as Hid by lia.
    destruct (lookup_lt_is_Some_2 dat (Z.to_nat next_id)) as [x Hx]; [lia|].
    destruct (IH (S i) (<[sid c := next_id + 1]> next)
                (<[Z.to_nat next_id := d]> dat)) as (next' & dat' & Hrun & Hfin);
      [|lia|].
    + split_and!.
      * by rewrite length_insert.
      * by rewrite length_insert.
      * intros k Hk. rewrite (bucket_take_S k P i c d Hi), length_app.
        case_decide as Hc.
        -- subst k. rewrite list_lookup_insert_eq by lia.
           f_equal. simpl. lia.
        -- rewrite list_lookup_insert_ne, (Hnext k Hk) by done.
           f_equal. simpl. lia.
      * intros k j Hk. rewrite (bucket_take_S k P i c d Hi), length_app.
        case_decide as Hc; simpl; intros Hj.
        -- subst k. destruct (decide (j = cnt (sid c) (take i P))) as [->|].
           ++ rewrite <- Hid, list_lookup_insert_eq by lia.
              by rewrite lookup_app_r, Nat.sub_diag.
           ++ rewrite list_lookup_insert_ne, lookup_app_l by lia.
              apply Hdat; [done|lia].
        -- rewrite app_nil_r. rewrite list_lookup_insert_ne; [apply Hdat; [done|lia]|].
           pose proof (bucket_take_le k P i). pose proof (F_nonneg k).
           destruct (decide (k < sid c)%nat).
           ++ pose proof (F_next_le k (sid c) ltac:(lia) Hk). lia.
           ++ pose proof (F_next_le (sid c) k ltac:(lia) Hs). lia.
    + exists next', dat'. split; [|done].
      cbn [scatter_pass]. rewrite raw_cell_ids, raw_data, !list_lookup_fmap, Hi.
      simpl. change (Z.to_nat (linearize dim g c)) with (sid c).
      rewrite (Hnext _ Hs). simpl. fold next_id. rewrite Hx. simpl.
      rewrite to_size_t_small by lia. exact Hrun.
Qed.

End Scatter.

End Passes.
(** ** The class invariant *)

Section Invariant.
Context {Data : Type} `{!VectorLimits Data}.
Variable default_data : Data.
Variable dim : nat.
Implicit Types (g c : list Z) (s : MultiGrid Data) (P : list (list Z * Data)).

Local Abbreviation wf := (wf dim).
Local Abbreviation compress := (compress default_data dim).

Lemma invalid_cell_id_false g c :
  invalid_cell_id dim g c = false
  ↔ ∀ i, (i < dim)%nat → c !!! i < g !!! i.
Proof.
  unfold invalid_cell_id. rewrite <- not_true_iff_false, existsb_exists.
  split.
  - intros Hno i Hi. destruct (Z.leb_spec (g !!! i) (c !!! i)); [|done].
    destruct Hno. exists i. split; [apply in_seq; lia|by apply Z.leb_le].
  - intros Hall (i & Hi%in_seq & Hle%Z.leb_le). specialize (Hall i). lia.
Qed.

Lemma invalid_cell_id_valid g c :
  length g = dim → is_array dim c →
  invalid_cell_id dim g c = false ↔ valid_cell_id g c.
Proof.
  intros Hg [Hc Hc0]. rewrite invalid_cell_id_false. split.
  - intros Hlt. apply Forall2_same_length_lookup_2; [lia|].
    intros i x y Hx Hy. pose proof (lookup_lt_Some _ _ _ Hx).
    specialize (Hlt i ltac:(lia)).
    pose proof (proj1 (Forall_lookup _ _) Hc0 i x Hx) as Hx0. simpl in Hx0.
    apply list_lookup_total_correct in Hx, Hy. lia.
  - intros Hv i Hi. apply (valid_cell_id_lookup g c i Hv). lia.
Qed.

Lemma valid_cell_id_not_invalid g c :
  length g = dim → valid_cell_id g c → invalid_cell_id dim g c = false.
Proof.
  intros Hg Hv. apply invalid_cell_id_false. intros i Hi.
  apply (valid_cell_id_lookup g c i Hv). lia.
Qed.

Lemma linearize_bounds g c :
  valid_grid_size dim g → valid_cell_id g c → product g ≤ 2 ^ 64 →
  0 ≤ linearize dim g c < product g.
Proof.
  intros Hg Hc Hfit. rewrite (linearize_exact dim) by done.
  by apply linear_index_bounds.
Qed.

Lemma storage_id_lt g c :
  valid_grid_size dim g → valid_cell_id g c → product g ≤ 2 ^ 64 →
  (storage_id dim g c < Z.to_nat (product g))%nat.
Proof.
  intros Hg Hc Hfit. pose proof (linearize_bounds g c Hg Hc Hfit).
  unfold storage_id. lia.
Qed.

Lemma storage_id_inj g c c' :
  valid_grid_size dim g → product g ≤ 2 ^ 64 →
  valid_cell_id g c → valid_cell_id g c' →
  storage_id dim g c = storage_id dim g c' → c = c'.
Proof.
  intros Hg Hfit Hc Hc' Heq.
  pose proof (linearize_bounds g c Hg Hc Hfit).
  pose proof (linearize_bounds g c' Hg Hc' Hfit).
  apply (linear_index_inj dim g); [done..|].
  rewrite <- !(linearize_exact dim) by done. unfold storage_id in Heq. lia.
Qed.

Lemma items_of_cons c c' (d : Data) P :
  items_of c ((c', d) :: P)
  = if decide (c' = c) then d :: items_of c P else items_of c P.
Proof. unfold items_of. rewrite filter_cons. simpl. by case_decide. Qed.

(** On valid cell ids a bucket holds exactly the items of one cell. *)
Lemma bucket_items_of g c P :
  valid_grid_size dim g → product g ≤ 2 ^ 64 →
  valid_cell_id g c → Forall (valid_cell_id g) P.*1 →
  bucket dim g (storage_id dim g c) P = items_of c P.
Proof.
  intros Hg Hfit Hc.
  induction P as [|[c' d] P IH]; intros HP; [done|].
  rewrite fmap_cons in HP. apply Forall_cons in HP as [Hc' HP].
  rewrite bucket_cons, items_of_cons, IH by done.
  destruct (decide (c' = c)) as [->|Hne].
  - by rewrite decide_True.
  - rewrite decide_False; [done|].
    intros Heq. destruct Hne. by apply (storage_id_inj g).
Qed.

Lemma raw_pairs_fst (raw : RawData.t Data) :
  length (RawData.cell_ids raw) = length (RawData.data raw) →
  (raw_pairs raw).*1 = RawData.cell_ids raw.
Proof. intros Hlen. apply fst_zip. lia. Qed.

Lemma raw_pairs_snd (raw : RawData.t Data) :
  length (RawData.cell_ids raw) = length (RawData.data raw) →
  (raw_pairs raw).*2 = RawData.data raw.
Proof. intros Hlen. apply snd_zip. lia. Qed.

Lemma raw_pairs_length (raw : RawData.t Data) :
  length (RawData.cell_ids raw) = length (RawData.data raw) →
  length (raw_pairs raw) = length (RawData.data raw).
Proof. intros Hlen. unfold raw_pairs. rewrite length_zip. lia. Qed.

Lemma wf_product_fits s : wf s → product (grid_size_ s) < 2 ^ 64.
Proof. intros Hwf. rewrite <- (wf_exact _ _ Hwf). apply (wf_cells _ _ Hwf). Qed.

Lemma wf_storage_id_lt s c :
  wf s → valid_cell_id (grid_size_ s) c →
  (storage_id dim (grid_size_ s) c < Z.to_nat (num_cells_ s))%nat.
Proof.
  intros Hwf Hc. pose proof (wf_product_fits s Hwf).
  rewrite (wf_exact _ _ Hwf).
  apply storage_id_lt; [apply Hwf|done|lia].
Qed.

Lemma compress_buffers_eq s num first next dat :
  count_pass dim (grid_size_ s) (RawData.cell_ids (raw_data_ s))
    (replicate
       (length (CompressedData.num_data_per_cell (compressed_data_ s))) 0)
  = Some num →
  prefix_pass (Z.to_nat (num_cells_ s)) 0 num
    (replicate
       (length (CompressedData.first_data_id_per_cell (compressed_data_ s))) 0)
    0
  = Some first →
  scatter_pass dim (grid_size_ s) (length (RawData.data (raw_data_ s))) 0
    (raw_data_ s) first
    (resize (length (RawData.data (raw_data_ s))) default_data
       (CompressedData.data (compressed_data_ s)))
  = Some (next, dat) →
  compress_buffers default_data dim s
  = Some (CompressedData.mk dat num first next).
Proof.
  intros H1 H2 H3. unfold compress_buffers.
  rewrite H1. simpl. rewrite H2. simpl. by rewrite H3.
Qed.

(** The three passes succeed when every buffered storage id is below
    the length of the per-cell arrays, and leave the compressed buffer
    mirroring the raw buffer. *)
Lemma compress_buffers_bounded s :
  length (CompressedData.num_data_per_cell (compressed_data_ s))
    = Z.to_nat (num_cells_ s) →
  length (CompressedData.first_data_id_per_cell (compressed_data_ s))
    = Z.to_nat (num_cells_ s) →
  length (RawData.cell_ids (raw_data_ s))
    = length (RawData.data (raw_data_ s)) →
  Z.of_nat (length (RawData.data (raw_data_ s))) < 2 ^ 64 →
  Forall (λ c, (storage_id dim (grid_size_ s) c < Z.to_nat (num_cells_ s))%nat)
    (RawData.cell_ids (raw_data_ s)) →
  ∃ cd, compress_buffers default_data dim s = Some cd
    ∧ mirrors dim (mkMultiGrid (grid_size_ s) (num_cells_ s) true
                     (raw_data_ s) cd).
Proof.
  intros Hwfnum Hwffirst Hrl Hrawfits Hbound.
  set (g := grid_size_ s). set (raw := raw_data_ s).
  set (P := raw_pairs raw). set (C := Z.to_nat (num_cells_ s)).
  pose proof (raw_pairs_fst raw Hrl : P.*1 = RawData.cell_ids raw) as Hfst.
  pose proof (raw_pairs_snd raw Hrl : P.*2 = RawData.data raw) as Hsnd.
  pose proof (raw_pairs_length raw Hrl : length P = length (RawData.data raw))
    as HlP.
  assert (Z.of_nat (length P) < 2 ^ 64) as Hfits.
  { by rewrite HlP. }
  assert (∀ p, p ∈ P → (storage_id dim g p.1 < C)%nat) as Hsid.
  { intros p Hp. apply (proj1 (Forall_forall _ _) Hbound).
    fold raw. rewrite <- Hfst. by apply list_elem_of_fmap_2. }
  destruct (count_pass_spec dim g P (replicate C 0))
    as (num & Hcount & Hlnum & Hnn & Hnum & Hsum).
  { by rewrite length_replicate. }
  { by apply Forall_replicate. }
  { rewrite sum_list_replicate. lia. }
  rewrite length_replicate in Hlnum. rewrite sum_list_replicate in Hsum.
  assert (∀ k, (k < length num)%nat →
            num !! k = Some (Z.of_nat (length (bucket dim g k P)))) as Hnum'.
  { intros k Hk. apply (Hnum k 0). apply lookup_replicate_2. lia. }
  destruct (prefix_pass_spec num C 0 (replicate C 0))
    as (first & Hprefix & Hlfirst & Hfirst).
  { by rewrite length_replicate. }
  { lia. }
  { done. }
  { lia. }
  { intros k Hk. lia. }
  destruct (scatter_pass_spec dim g P raw num first) with
    (n := length P) (i := 0%nat) (next := first)
    (dat := resize (length P) default_data
              (CompressedData.data (compressed_data_ s)))
    as (next' & dat' & Hscatter & Hl1 & Hl2 & Hnext & Hdat);
    [by rewrite Hfst|by rewrite Hsnd|by rewrite Hlnum|lia|done|lia|done| |lia|].
  { split_and!; [lia|by rewrite length_resize| |].
    - intros k Hk. rewrite (Hfirst k Hk). f_equal. simpl. lia.
    - intros k j _ Hj. simpl in Hj. lia. }
  exists (CompressedData.mk dat' num first next'). split.
  - rewrite Hfst in Hcount. rewrite HlP in Hscatter.
    apply compress_buffers_eq.
    + rewrite Hwfnum. exact Hcount.
    + rewrite Hwffirst. exact Hprefix.
    + exact Hscatter.
  - rewrite take_ge in Hdat by done.
    split; [split_and!; simpl|]; fold raw C.
    + done.
    + lia.
    + by rewrite <- HlP.
    + by rewrite <- HlP.
    + intros k Hk. apply Hfirst. lia.
    + intros k Hk. cbn [num_cells_] in Hk. fold C in Hk.
      simpl. fold raw P g. split; [apply Hnum'; lia|].
      unfold segment. simpl.
      assert (k < length num)%nat as Hk' by lia.
      rewrite (list_lookup_total_correct _ _ _ (Hnum' k Hk')).
      rewrite (list_lookup_total_correct _ _ _ (Hfirst k Hk')).
      rewrite Nat2Z.id. apply list_eq. intros j.
      rewrite lookup_take, lookup_drop. case_decide as Hj.
      * apply Hdat; lia.
      * symmetry. apply lookup_ge_None_2. lia.
Qed.

(** In particular they succeed on a well-formed container. *)
Lemma compress_buffers_spec s :
  wf s →
  ∃ cd, compress_buffers default_data dim s = Some cd
    ∧ mirrors dim (mkMultiGrid (grid_size_ s) (num_cells_ s) true
                     (raw_data_ s) cd).
Proof.
  intros Hwf. apply compress_buffers_bounded; try apply Hwf.
  apply Forall_forall. intros c Hc. apply wf_storage_id_lt; [done|].
  by apply (proj1 (Forall_forall _ _) (wf_raw_valid _ _ Hwf)).
Qed.

Lemma compress_wf s :
  wf s →
  ∃ s', compress s = Ret () s'
    ∧ wf s' ∧ mirrors dim s' ∧ compressed_ s' = true
    ∧ grid_size_ s' = grid_size_ s ∧ num_cells_ s' = num_cells_ s
    ∧ raw_data_ s' = raw_data_ s.
Proof.
  intros Hwf. unfold compress. destruct (compressed_ s) eqn:Hflag.
  - exists s. split_and!; try done. by apply (wf_mirrors _ _ Hwf).
  - destruct (compress_buffers_spec s Hwf) as (cd & -> & Hm).
    eexists. split; [done|]. split_and!; [|done..].
    pose proof Hm as [(Hn & Hf & _) _].
    split; try apply Hwf; done.
Qed.

Lemma MultiGrid_new_inl g b s :
  MultiGrid_new (Data:=Data) dim g b = inl s →
  let n := to_size_t (accumulate_int g 1 multiplies_size_t) in
  existsb (λ i, g !!! i =? 0) (seq 0 dim) = false
  ∧ s = mkMultiGrid g n false (RawData.mk [] [])
          (CompressedData.mk [] (replicate (Z.to_nat n) 0)
             (replicate (Z.to_nat n) 0) (replicate (Z.to_nat n) 0)).
Proof.
  unfold MultiGrid_new. repeat case_match; try done. intros [= <-].
  by rewrite !resize_nil.
Qed.

Lemma MultiGrid_new_grid_size g b s :
  MultiGrid_new (Data:=Data) dim g b = inl s → grid_size_ s = g.
Proof. by intros [_ ->]%MultiGrid_new_inl. Qed.

(** The stored cell count is the product of the grid sizes cut to an
    [int] and converted back. *)
Lemma MultiGrid_new_num_cells g b s :
  MultiGrid_new (Data:=Data) dim g b = inl s →
  num_cells_ s = to_size_t (to_int (product g)).
Proof. intros [_ ->]%MultiGrid_new_inl. simpl. apply num_cells_eq. Qed.

(** It is exact for every grid of fewer than 2^31 cells. *)
Lemma MultiGrid_new_exact g b s :
  MultiGrid_new (Data:=Data) dim g b = inl s →
  0 ≤ product g < 2 ^ 31 → exact_cells s.
Proof.
  intros [_ ->]%MultiGrid_new_inl Hp. unfold exact_cells. simpl.
  by apply num_cells_small.
Qed.

Lemma MultiGrid_new_valid g b s :
  is_array dim g → MultiGrid_new (Data:=Data) dim g b = inl s →
  valid_grid_size dim g.
Proof.
  intros [Hlen Hg] [Hz _]%MultiGrid_new_inl. split; [done|].
  apply (Forall_lookup_total (λ n, 1 ≤ n < 2 ^ 64) g). intros i Hi.
  pose proof (proj1 (Forall_lookup_total (λ x, 0 ≤ x < 2 ^ 64) g) Hg i Hi)
    as Hr. simpl in Hr.
  assert (g !!! i ≠ 0); [|lia].
  intros H0. apply not_true_iff_false in Hz. destruct Hz.
  apply existsb_exists. exists i. split; [apply in_seq; lia|].
  by apply Z.eqb_eq.
Qed.

Lemma MultiGrid_new_wf g b s :
  is_array dim g → MultiGrid_new dim g b = inl s → exact_cells s → wf s.
Proof.
  intros Hg Hnew Hexact.
  pose proof (MultiGrid_new_valid g b s Hg Hnew) as Hv.
  apply MultiGrid_new_inl in Hnew as [_ ->].
  split; simpl; try done.
  - apply to_size_t_range.
  - by rewrite length_replicate.
  - by rewrite length_replicate.
Qed.

Lemma add_Ret c d s s' :
  add dim c d s = Ret () s' →
  invalid_cell_id dim (grid_size_ s) c = false
  ∧ s' = mkMultiGrid (grid_size_ s) (num_cells_ s) false
           (RawData.mk (RawData.data (raw_data_ s) ++ [d])
                       (RawData.cell_ids (raw_data_ s) ++ [c]))
           (compressed_data_ s).
Proof.
  unfold add. case_match; [done|]. intros ?; simplify_eq.
  split; [done|]. by destruct (compressed_ s).
Qed.

Lemma add_Throw c d s e s' :
  add dim c d s = Throw e s' →
  invalid_cell_id dim (grid_size_ s) c = true ∧ e = OutOfRange ∧ s' = s.
Proof. unfold add. case_match; [|done]. intros ?; by simplify_eq. Qed.

Lemma add_wf c d s s' :
  wf s → is_array dim c →
  Z.of_nat (length (RawData.data (raw_data_ s))) + 1 < 2 ^ 64 →
  add dim c d s = Ret () s' → wf s'.
Proof.
  intros Hwf Hc Hfits [Hok ->]%add_Ret.
  split; simpl; try apply Hwf; try done.
  - rewrite !length_app, (wf_raw_length _ _ Hwf). done.
  - rewrite length_app. simpl. lia.
  - apply Forall_app. split; [apply Hwf|].
    apply Forall_singleton. apply invalid_cell_id_valid; [apply Hwf|done..].
Qed.

Lemma clear_wf s s' : wf s → clear s = Ret () s' → wf s'.
Proof.
  intros Hwf. unfold clear. intros ?; simplify_eq.
  split; simpl; try apply Hwf; try done.
  by destruct (compressed_ s).
Qed.

Lemma enumerateData_wf c s :
  wf s → compressed_ s = true → valid_cell_id (grid_size_ s) c →
  ∃ first num,
    CompressedData.first_data_id_per_cell (compressed_data_ s)
      !! storage_id dim (grid_size_ s) c = Some first
    ∧ CompressedData.num_data_per_cell (compressed_data_ s)
      !! storage_id dim (grid_size_ s) c = Some num
    ∧ enumerateData dim c s = Ret (DataBounds.mk first (first + num)) s.
Proof.
  intros Hwf Hflag Hc. pose proof (wf_storage_id_lt s c Hwf Hc) as Hk.
  destruct (lookup_lt_is_Some_2
    (CompressedData.first_data_id_per_cell (compressed_data_ s))
    (storage_id dim (grid_size_ s) c)) as [f Hf].
  { by rewrite (wf_first _ _ Hwf). }
  destruct (lookup_lt_is_Some_2
    (CompressedData.num_data_per_cell (compressed_data_ s))
    (storage_id dim (grid_size_ s) c)) as [n Hn].
  { by rewrite (wf_num _ _ Hwf). }
  exists f, n. split_and!; [done..|].
  unfold enumerateData. rewrite Hflag. simpl.
  rewrite valid_cell_id_not_invalid by (done || apply Hwf).
  unfold storage_id in Hf, Hn. by rewrite Hf, Hn.
Qed.

End Invariant.
(** ** Sequences of calls *)

Section Runs.
Context {Data : Type} `{!VectorLimits Data}.
Variable default_data : Data.
Variable dim : nat.
Implicit Types (g c : list Z) (s : MultiGrid Data) (o : op (Data:=Data)).

Local Abbreviation wf := (wf dim).
Local Abbreviation call := (call default_data dim).
Local Abbreviation run := (run default_data dim).
Local Abbreviation history := (history default_data dim).
Local Abbreviation raw_size s := (length (RawData.data (raw_data_ s))).

Lemma compress_Ret s s' :
  compress default_data dim s = Ret () s' →
  compressed_ s' = true ∧ grid_size_ s' = grid_size_ s
  ∧ num_cells_ s' = num_cells_ s ∧ raw_data_ s' = raw_data_ s.
Proof.
  unfold compress. destruct (compressed_ s) eqn:Hflag.
  - by intros [= <-].
  - case_match; [|done]. by intros [= <-].
Qed.

Lemma compress_not_Throw s e s' : compress default_data dim s ≠ Throw e s'.
Proof. unfold compress. repeat case_match; done. Qed.

Lemma enumerateData_state c s s' :
  state_after (enumerateData dim c s) = Some s' → s' = s.
Proof.
  unfold enumerateData. repeat case_match; simpl; intros; by simplify_eq.
Qed.

(** Every call keeps the shape and sets the flag as the source does. *)
Lemma call_shape o s s' :
  call o s = Some s' →
  grid_size_ s' = grid_size_ s ∧ num_cells_ s' = num_cells_ s
  ∧ compressed_ s' =
      match o with
      | Compress => true
      | _ => if mutating dim (grid_size_ s) o then false else compressed_ s
      end.
Proof.
  destruct o as [c d| | |c]; simpl.
  - destruct (add dim c d s) as [[] s1|e s1|] eqn:Hadd; simpl; [| |done].
    + intros [= <-]. apply add_Ret in Hadd as [-> ->]. done.
    + intros [= <-]. apply add_Throw in Hadd as (-> & _ & ->). done.
  - unfold clear. simpl. intros [= <-]. simpl. by destruct (compressed_ s).
  - destruct (compress default_data dim s) as [[] s1|e s1|] eqn:Hc; simpl;
      [| |done].
    + intros [= <-]. by apply compress_Ret in Hc as (-> & -> & -> & _).
    + by apply compress_not_Throw in Hc.
  - intros ->%enumerateData_state. done.
Qed.

Lemma call_wf o s :
  wf s → op_typed dim o → Z.of_nat (raw_size s) + 1 < 2 ^ 64 →
  ∃ s', call o s = Some s' ∧ wf s' ∧ (raw_size s' ≤ raw_size s + 1)%nat.
Proof.
  intros Hwf Ho Hfits. destruct o as [c d| | |c]; simpl in *.
  - destruct (add dim c d s) as [[] s1|e s1|] eqn:Hadd; simpl.
    + exists s1. split; [done|]. split; [by eapply add_wf|].
      apply add_Ret in Hadd as [_ ->]. simpl. rewrite length_app. simpl. lia.
    + apply add_Throw in Hadd as (_ & _ & ->). exists s. split_and!; [done..|lia].
    + unfold add in Hadd. by case_match.
  - eexists. split; [done|]. split; [by eapply clear_wf|]. simpl. lia.
  - destruct (compress_wf default_data dim s Hwf)
      as (s' & Hc & Hwf' & _ & _ & _ & _ & Hraw).
    exists s'. rewrite Hc, Hraw. split_and!; [done..|lia].
  - exists s. split_and!; [|done|lia].
    unfold enumerateData. destruct (compressed_ s) eqn:Hflag; simpl; [|done].
    destruct (invalid_cell_id dim (grid_size_ s) c) eqn:Hc; [done|].
    apply invalid_cell_id_valid in Hc; [|apply Hwf|done].
    destruct (enumerateData_wf dim c s Hwf Hflag Hc) as (f & n & Hf & Hn & _).
    unfold storage_id in Hf, Hn. by rewrite Hf, Hn.
Qed.

Lemma run_wf ops s :
  wf s → Forall (op_typed dim) ops →
  Z.of_nat (raw_size s + length ops) < 2 ^ 64 →
  ∃ s', run ops s = Some s' ∧ wf s'.
Proof.
  revert s. induction ops as [|o ops IH]; intros s Hwf Hty Hfits.
  - by exists s.
  - apply Forall_cons in Hty as [Ho Hty]. simpl in Hfits.
    destruct (call_wf o s Hwf Ho) as (s1 & Hcall & Hwf1 & Hsize); [lia|].
    destruct (IH s1 Hwf1 Hty) as (s' & Hrun & Hwf'); [lia|].
    exists s'. split; [|done]. simpl. fold call. by rewrite Hcall.
Qed.

Lemma run_shape ops s s' :
  run ops s = Some s' →
  grid_size_ s' = grid_size_ s ∧ num_cells_ s' = num_cells_ s.
Proof.
  revert s. induction ops as [|o ops IH]; intros s; simpl.
  - by intros [= <-].
  - fold call. destruct (call o s) as [s1|] eqn:Hcall; [|done]. simpl.
    intros [-> ->]%IH. by apply call_shape in Hcall as (-> & -> & _).
Qed.

Lemma run_snoc ops o s : run (ops ++ [o]) s = run ops s ≫= call o.
Proof.
  revert s. induction ops as [|o' ops IH]; intros s; simpl.
  - fold call. by destruct (call o s).
  - fold call. destruct (call o' s); simpl; [apply IH|done].
Qed.

(** A constructed container whose cell count is exact satisfies the class
    invariant after any sequence of calls. *)
Lemma history_wf g ops s :
  is_array dim g → Forall (op_typed dim) ops →
  Z.of_nat (length ops) < 2 ^ 64 →
  history g ops s → exact_cells s → wf s ∧ grid_size_ s = g.
Proof.
  intros Hg Hty Hfits (b & s0 & Hnew & Hrun) Hexact.
  pose proof (run_shape _ _ _ Hrun) as [Hgs Hnc].
  assert (wf s0) as Hwf0.
  { eapply MultiGrid_new_wf; [done..|].
    unfold exact_cells in *. by rewrite <- Hgs, <- Hnc. }
  destruct (run_wf ops s0 Hwf0 Hty) as (s' & Hrun' & Hwf').
  { apply MultiGrid_new_inl in Hnew as [_ ->]. simpl. lia. }
  rewrite Hrun in Hrun'. simplify_eq. split; [done|].
  rewrite Hgs. by eapply MultiGrid_new_grid_size.
Qed.

Lemma compressed_after_nil g : ¬ compressed_after (Data:=Data) dim g [].
Proof. intros (pre & post & Heq & _). by destruct pre. Qed.

Lemma compressed_after_snoc g ops o :
  compressed_after dim g (ops ++ [o])
  ↔ o = Compress ∨ (mutating dim g o = false ∧ compressed_after dim g ops).
Proof.
  split.
  - intros (pre & post & Heq & Hpost).
    destruct post as [|o' post _] using rev_ind.
    + apply app_inj_tail in Heq as [_ ->]. by left.
    + rewrite app_comm_cons, app_assoc in Heq.
      apply app_inj_tail in Heq as [-> ->].
      apply Forall_app in Hpost as [Hpost Ho].
      apply (proj1 (Forall_singleton _ _)) in Ho.
      right. split; [done|]. by exists pre, post.
  - intros [->|[Ho (pre & post & -> & Hpost)]].
    + exists ops, []. by split.
    + exists pre, (post ++ [o]). split; [by rewrite <- app_assoc|].
      apply Forall_app. split; [done|]. by apply Forall_singleton.
Qed.

(** The flag is set exactly when some [compress] was called and no
    mutating call followed. *)
Lemma run_flag ops s0 s :
  compressed_ s0 = false → run ops s0 = Some s →
  compressed_ s = true ↔ compressed_after dim (grid_size_ s0) ops.
Proof.
  intros Hflag0. revert s. induction ops as [|o ops IH] using rev_ind; intros s.
  - simpl. intros [= <-]. rewrite Hflag0. split; [done|].
    intros []%compressed_after_nil.
  - rewrite run_snoc. destruct (run ops s0) as [s1|] eqn:Hrun; [|done]. simpl.
    intros Hcall. specialize (IH s1 eq_refl).
    pose proof (run_shape _ _ _ Hrun) as [Hgs _].
    apply call_shape in Hcall as (_ & _ & ->). rewrite Hgs.
    rewrite compressed_after_snoc. destruct o as [c d| | |c]; simpl.
    + destruct (invalid_cell_id dim (grid_size_ s0) c); simpl;
        intuition congruence.
    + intuition congruence.
    + intuition congruence.
    + intuition congruence.
Qed.

Lemma history_flag g ops s :
  history g ops s → compressed_ s = true ↔ compressed_after dim g ops.
Proof.
  intros (b & s0 & Hnew & Hrun).
  rewrite <- (MultiGrid_new_grid_size dim g b s0 Hnew).
  apply run_flag; [|done]. by apply MultiGrid_new_inl in Hnew as [_ ->].
Qed.

Lemma raw_pairs_snoc (raw : RawData.t Data) c d :
  length (RawData.cell_ids raw) = length (RawData.data raw) →
  raw_pairs (RawData.mk (RawData.data raw ++ [d]) (RawData.cell_ids raw ++ [c]))
  = raw_pairs raw ++ [(c, d)].
Proof. intros Hlen. unfold raw_pairs. simpl. by rewrite zip_with_app. Qed.

(** A run of successful [add] calls appends its pairs to the raw buffer. *)
Lemma add_all_spec adds s s' :
  length (RawData.cell_ids (raw_data_ s)) = raw_size s →
  add_all dim adds s = Ret () s' →
  raw_pairs (raw_data_ s') = raw_pairs (raw_data_ s) ++ adds
  ∧ run ((λ p, Add p.1 p.2) <$> adds) s = Some s'.
Proof.
  revert s. induction adds as [|[c d] adds IH]; intros s Hlen; simpl.
  - intros [= <-]. by rewrite app_nil_r.
  - destruct (add dim c d s) as [[] s1|e s1|] eqn:Hadd; [|done..].
    intros Hall. pose proof Hadd as [_ Hs1]%add_Ret.
    destruct (IH s1) as [Hraw Hrun]; [|done|].
    { rewrite Hs1. simpl. rewrite !length_app. simpl. lia. }
    split.
    + rewrite Hraw, Hs1. simpl. rewrite raw_pairs_snoc by done.
      by rewrite <- app_assoc.
    + exact Hrun.
Qed.

(** On a compressed well-formed container, [enumerateData] returns the
    bounds of the cell's segment, which holds the cell's items in
    insertion order. *)
Lemma enumerateData_mirrors c s :
  wf s → compressed_ s = true → valid_cell_id (grid_size_ s) c →
  let cd := compressed_data_ s in
  let k := storage_id dim (grid_size_ s) c in
  ∃ first num,
    CompressedData.first_data_id_per_cell cd !! k = Some first
    ∧ CompressedData.num_data_per_cell cd !! k = Some num
    ∧ enumerateData dim c s = Ret (DataBounds.mk first (first + num)) s
    ∧ view cd (DataBounds.mk first (first + num)) = segment cd k
    ∧ segment cd k = items_of c (raw_pairs (raw_data_ s))
    ∧ num = Z.of_nat (length (items_of c (raw_pairs (raw_data_ s)))).
Proof.
  intros Hwf Hflag Hc cd k.
  destruct (enumerateData_wf dim c s Hwf Hflag Hc) as (f & n & Hf & Hn & Hret).
  pose proof (wf_storage_id_lt dim s c Hwf Hc) as Hk.
  destruct (wf_mirrors _ _ Hwf Hflag) as [_ Hm].
  destruct (Hm _ Hk) as [Hnum Hseg].
  pose proof (wf_product_fits dim s Hwf).
  assert (bucket dim (grid_size_ s) k (raw_pairs (raw_data_ s))
          = items_of c (raw_pairs (raw_data_ s))) as Hb.
  { apply bucket_items_of; [apply Hwf|lia|done|].
    rewrite raw_pairs_fst; apply Hwf. }
  exists f, n. fold cd k in Hf, Hn, Hnum, Hseg.
  split_and!; [done..| | |].
  - unfold view, segment. simpl.
    rewrite (list_lookup_total_correct _ _ _ Hf).
    rewrite (list_lookup_total_correct _ _ _ Hn).
    by replace (f + n - f) with n by lia.
  - by rewrite Hseg.
  - rewrite Hn in Hnum. rewrite <- Hb. by simplify_eq.
Qed.

End Runs.
(** * Properties of the container *)

Section Properties.
Context {Data : Type} `{!VectorLimits Data}.
Variable default_data : Data.
Variable dim : nat.
Implicit Types (g c : list Z) (s : MultiGrid Data).

Local Abbreviation compress := (compress default_data dim).
Local Abbreviation history := (history default_data dim).

(** C3 (amended). For a valid grid size whose cell count fits [size_t]
    arithmetic (the product of the sizes is at most 2^64), [linearize]
    computes the sum of [c_i * prod_{j<i} n_j] and is a bijection from the
    valid cell ids onto [[0, C)], [C] the product of the sizes. *)
Theorem linearize_bijection g :
  valid_grid_size dim g → product g ≤ 2 ^ 64 →
  (∀ c, valid_cell_id g c →
     linearize dim g c = linear_index dim g c
     ∧ 0 ≤ linearize dim g c < product g)
  ∧ (∀ c c', valid_cell_id g c → valid_cell_id g c' →
       linearize dim g c = linearize dim g c' → c = c')
  ∧ (∀ n, 0 ≤ n < product g →
       ∃ c, valid_cell_id g c ∧ linearize dim g c = n).
Proof.
  intros Hg Hfit. split_and!.
  - intros c Hc. split; [by apply linearize_exact|by apply linearize_bounds].
  - intros c c' Hc Hc' Heq. apply (linear_index_inj dim g); [done..|].
    by rewrite <- !(linearize_exact dim).
  - intros n Hn. exists (delinearize dim g n).
    pose proof (delinearize_valid dim g n Hg) as Hv. split; [done|].
    rewrite (linearize_exact dim) by done.
    by apply delinearize_linear_index.
Qed.


(** C5. [add] throws, with [OutOfRange], exactly when some component of
    the cell id is not below the grid size; a throw leaves the container
    as it was; a return has appended the item and the cell id to the raw
    sequences, with the flag clear and the compressed buffer untouched. *)
Theorem add_spec c (d : Data) s :
  ((∃ s', add dim c d s = Throw OutOfRange s')
   ↔ ∃ i, (i < dim)%nat ∧ grid_size_ s !!! i ≤ c !!! i)
  ∧ (∀ e s', add dim c d s = Throw e s' → e = OutOfRange ∧ s' = s)
  ∧ (∀ s', add dim c d s = Ret () s' →
       RawData.data (raw_data_ s') = RawData.data (raw_data_ s) ++ [d]
       ∧ RawData.cell_ids (raw_data_ s') = RawData.cell_ids (raw_data_ s) ++ [c]
       ∧ compressed_ s' = false
       ∧ compressed_data_ s' = compressed_data_ s
       ∧ grid_size_ s' = grid_size_ s
       ∧ num_cells_ s' = num_cells_ s)
  ∧ add dim c d s ≠ Undefined.
Proof.
  split_and!.
  - unfold add, invalid_cell_id. destruct (existsb _ _) eqn:Hz.
    + split; [intros _|by eexists].
      apply existsb_exists in Hz as (i & Hi & Hle).
      exists i. apply in_seq in Hi. apply Z.leb_le in Hle. split; [lia|done].
    + split; [by intros [? ?]|]. intros (i & Hi & Hle).
      apply not_true_iff_false in Hz. destruct Hz. apply existsb_exists.
      exists i. split; [apply in_seq; lia|by apply Z.leb_le].
  - intros e s' Hthrow. by apply add_Throw in Hthrow as (_ & -> & ->).
  - intros s' [_ ->]%add_Ret. done.
  - unfold add. by case_match.
Qed.

(** C4. [compress] is idempotent: a second call, with no call in between,
    ends like the first with the same container, so every later
    [enumerateData] answers the same; and on a container whose flag is
    set [compress] returns at once with the container unchanged. *)
Theorem compress_idempotent s :
  match compress s with
  | Ret _ s1 => compress s1
  | r => r
  end = compress s
  ∧ (∀ s1 s2, compress s = Ret () s1 → compress s1 = Ret () s2 →
       s2 = s1 ∧ ∀ c, enumerateData dim c s2 = enumerateData dim c s1)
  ∧ (compressed_ s = true → compress s = Ret () s).
Proof.
  assert (∀ s1, compress s = Ret () s1 → compress s1 = Ret () s1) as Hid.
  { intros s1 Hs1. apply compress_Ret in Hs1 as (Hflag & _).
    unfold compress. by rewrite Hflag. }
  split_and!.
  - destruct (compress s) as [[] s1|e s1|] eqn:Hc; [by apply Hid|done..].
  - intros s1 s2 H1 H2. rewrite (Hid s1 H1) in H2. by simplify_eq.
  - intros Hflag. unfold compress. by rewrite Hflag.
Qed.

(** C10. On a container whose flag is clear, [enumerateData] with an
    out-of-range cell id throws [NotCompressed], not [OutOfRange]: the
    flag is tested first. *)
Theorem enumerateData_not_compressed_first c s :
  compressed_ s = false →
  (∃ i, (i < dim)%nat ∧ grid_size_ s !!! i ≤ c !!! i) →
  enumerateData dim c s = Throw NotCompressed s.
Proof. intros Hflag _. unfold enumerateData. by rewrite Hflag. Qed.

(** With the flag set, the same call reports the cell id. *)
Lemma enumerateData_out_of_range c s :
  compressed_ s = true →
  (∃ i, (i < dim)%nat ∧ grid_size_ s !!! i ≤ c !!! i) →
  enumerateData dim c s = Throw OutOfRange s.
Proof.
  intros Hflag (i & Hi & Hle). unfold enumerateData. rewrite Hflag. simpl.
  destruct (invalid_cell_id dim (grid_size_ s) c) eqn:Hc; [done|].
  pose proof (proj1 (invalid_cell_id_false dim _ _) Hc i Hi). lia.
Qed.

(** C2 (amended). On a container whose stored cell count is the product
    of the grid sizes, every [compress] call returns, and afterwards the
    counts sum to the number of raw items, which is the length of the
    compressed data, and [first_data_id_per_cell[c]] is the sum of the
    counts before [c], for every cell index [c]. *)
Theorem compress_csr g ops s :
  is_array dim g → Forall (op_typed dim) ops →
  Z.of_nat (length ops) < 2 ^ 64 →
  history g ops s → exact_cells s →
  ∃ s', compress s = Ret () s'
    ∧ raw_data_ s' = raw_data_ s
    ∧ csr s'.
Proof.
  intros Hg Hty Hfits Hhist Hexact.
  destruct (history_wf default_data dim g ops s) as [Hwf _]; [done..|].
  destruct (compress_wf default_data dim s Hwf)
    as (s' & Hc & _ & [Hcsr _] & _ & _ & _ & Hraw).
  by exists s'.
Qed.

(** C8 (amended). On a container whose stored cell count is the product
    of the grid sizes, every [compress] call returns, and afterwards the
    segment of each cell holds the items added with that cell id, in the
    order in which they were added. *)
Theorem compress_stable g ops s :
  is_array dim g → Forall (op_typed dim) ops →
  Z.of_nat (length ops) < 2 ^ 64 →
  history g ops s → exact_cells s →
  ∃ s', compress s = Ret () s'
    ∧ raw_data_ s' = raw_data_ s
    ∧ ∀ c, valid_cell_id g c →
        let cd := compressed_data_ s' in
        is_Some (CompressedData.first_data_id_per_cell cd
                   !! storage_id dim g c)
        ∧ is_Some (CompressedData.num_data_per_cell cd !! storage_id dim g c)
        ∧ segment cd (storage_id dim g c)
          = items_of c (raw_pairs (raw_data_ s)).
Proof.
  intros Hg Hty Hfits Hhist Hexact.
  destruct (history_wf default_data dim g ops s) as [Hwf Hgs]; [done..|].
  destruct (compress_wf default_data dim s Hwf)
    as (s' & Hc & Hwf' & _ & Hflag & Hgs' & _ & Hraw).
  exists s'. split_and!; [done..|]. intros c Hv.
  destruct (enumerateData_mirrors dim c s' Hwf' Hflag)
    as (f & n & Hf & Hn & _ & _ & Hseg & _).
  { by rewrite Hgs', Hgs. }
  rewrite Hgs', Hgs in Hf, Hn, Hseg. rewrite Hraw in Hseg.
  simpl. by rewrite Hf, Hn.
Qed.

(** C1 (amended). On a new container whose stored cell count is the
    product of the grid sizes, after fewer than 2^64 [add] calls that all
    returned, [compress] returns, and then for every in-range cell id
    [enumerateData] returns a view whose items are, as a multiset, the
    items added with that cell id, and whose length is the count stored
    for the cell. *)
Theorem enumerateData_after_adds g (buff_size : Z) s0 adds s1 :
  is_array dim g → MultiGrid_new dim g buff_size = inl s0 → exact_cells s0 →
  Forall (λ p, is_array dim p.1) adds → Z.of_nat (length adds) < 2 ^ 64 →
  add_all dim adds s0 = Ret () s1 →
  ∃ s2, compress s1 = Ret () s2
    ∧ ∀ c, valid_cell_id g c →
        ∃ bounds,
          enumerateData dim c s2 = Ret bounds s2
          ∧ view (compressed_data_ s2) bounds ≡ₚ items_of c adds
          ∧ CompressedData.num_data_per_cell (compressed_data_ s2)
              !! storage_id dim g c
            = Some (Z.of_nat (length (view (compressed_data_ s2) bounds))).
Proof.
  intros Hg Hnew Hexact Hty Hfits Hadds.
  pose proof Hnew as [_ Hs0]%MultiGrid_new_inl.
  destruct (add_all_spec default_data dim adds s0 s1) as [Hpairs Hrun];
    [by rewrite Hs0|done|].
  rewrite Hs0 in Hpairs. simpl in Hpairs.
  assert (history g ((λ p, Add p.1 p.2) <$> adds) s1) as Hhist.
  { by exists buff_size, s0. }
  pose proof (run_shape _ _ _ _ _ Hrun) as [Hgs1 Hnc1].
  destruct (history_wf default_data dim g
              ((λ p, Add p.1 p.2) <$> adds) s1 Hg) as [Hwf Hgs].
  { apply Forall_fmap. by eapply Forall_impl. }
  { by rewrite length_fmap. }
  { done. }
  { unfold exact_cells in *. by rewrite Hgs1, Hnc1. }
  destruct (compress_wf default_data dim s1 Hwf)
    as (s2 & Hc & Hwf2 & _ & Hflag & Hgs2 & _ & Hraw).
  exists s2. split; [done|]. intros c Hv.
  destruct (enumerateData_mirrors dim c s2 Hwf2 Hflag)
    as (f & n & _ & Hn & Hret & Hview & Hseg & Hlen).
  { by rewrite Hgs2, Hgs. }
  rewrite Hgs2, Hgs in Hn, Hview, Hseg.
  rewrite Hraw, Hpairs in Hseg, Hlen.
  exists (DataBounds.mk f (f + n)). split_and!; [done| |].
  - by rewrite Hview, Hseg.
  - by rewrite Hn, Hview, Hseg, Hlen.
Qed.

(** C6 (amended). After any sequence of calls on a new container,
    [enumerateData] throws [NotCompressed] exactly when the flag is clear,
    that is when no [compress] was called yet or an [add] that returned
    or a [clear] followed the last one.  If moreover the stored cell count
    is the product of the grid sizes, then with the flag set and an
    in-range cell id it returns the bounds
    [[first[s], first[s] + num[s])] for [s = linearize(cell_id)]. *)
Theorem enumerateData_spec g ops s c :
  is_array dim g → Forall (op_typed dim) ops →
  Z.of_nat (length ops) < 2 ^ 64 →
  history g ops s →
  ((∃ s', enumerateData dim c s = Throw NotCompressed s')
   ↔ compressed_ s = false)
  ∧ (compressed_ s = false ↔ ¬ compressed_after dim g ops)
  ∧ (exact_cells s → compressed_ s = true → valid_cell_id g c →
       let cd := compressed_data_ s in
       ∃ first num,
         CompressedData.first_data_id_per_cell cd !! storage_id dim g c
           = Some first
         ∧ CompressedData.num_data_per_cell cd !! storage_id dim g c
           = Some num
         ∧ enumerateData dim c s
           = Ret (DataBounds.mk first (first + num)) s).
Proof.
  intros Hg Hty Hfits Hhist. split_and!.
  - unfold enumerateData. destruct (compressed_ s); simpl.
    + split; [|done]. intros [s' Hs']. by repeat case_match.
    + split; [done|]. by eexists.
  - rewrite <- (history_flag default_data dim g ops s Hhist).
    by destruct (compressed_ s).
  - intros Hexact Hflag Hv.
    destruct (history_wf default_data dim g ops s) as [Hwf Hgs]; [done..|].
    rewrite <- Hgs in Hv |- *.
    destruct (enumerateData_wf dim c s Hwf Hflag Hv) as (f & n & ? & ? & ?).
    by exists f, n.
Qed.

End Properties.
(** * Further properties *)

Section Further.
Context {Data : Type} `{!VectorLimits Data}.
Variable default_data : Data.
Variable dim : nat.
Implicit Types (g c : list Z) (s : MultiGrid Data).

Local Abbreviation compress := (compress default_data dim).
Local Abbreviation history := (history default_data dim).
Local Abbreviation run := (run default_data dim).
Local Abbreviation num_of s :=
  (CompressedData.num_data_per_cell (compressed_data_ s)).

(** ** The constructor *)

(** X1. The cell count stored by the constructor is the product of the
    grid sizes cut to its low 32 bits, read as a signed [int] and
    converted to [size_t]; for a grid size without a zero component it is
    the product itself exactly when the product is below 2^31 or in the
    top 2^31 values of [size_t]. *)
Theorem stored_cell_count g (buff_size : Z) s :
  is_array dim g →
  MultiGrid_new (Data:=Data) dim g buff_size = inl s →
  num_cells_ s = to_size_t (to_int (product g))
  ∧ (exact_cells s
     ↔ product g < 2 ^ 31 ∨ 2 ^ 64 - 2 ^ 31 ≤ product g < 2 ^ 64).
Proof.
  intros Hg Hnew.
  pose proof (MultiGrid_new_valid dim g buff_size s Hg Hnew) as [_ Hpos].
  apply product_pos in Hpos.
  apply MultiGrid_new_inl in Hnew as [_ ->]. unfold exact_cells. simpl.
  rewrite num_cells_eq. split; [done|].
  unfold to_size_t, to_int.
  destruct (Z.ltb_spec (product g `mod` 2 ^ 32) (2 ^ 31));
    Z.div_mod_to_equations; lia.
Qed.

(** ** Errors of [enumerateData] *)

(** X2. [enumerateData] throws [OutOfRange] exactly when the flag is set
    and some component of the cell id is not below the grid size; whatever
    it throws, the container is left as it was. *)
Theorem enumerateData_errors c s :
  ((∃ s', enumerateData dim c s = Throw OutOfRange s')
   ↔ compressed_ s = true
     ∧ ∃ i, (i < dim)%nat ∧ grid_size_ s !!! i ≤ c !!! i)
  ∧ (∀ e s', enumerateData dim c s = Throw e s' → s' = s)
  ∧ (∀ b s', enumerateData dim c s = Ret b s' → s' = s).
Proof.
  split_and!.
  - unfold enumerateData, invalid_cell_id.
    destruct (compressed_ s); simpl; [|split; [by intros [? ?]|by intros [? ?]]].
    destruct (existsb _ _) eqn:Hz.
    + split; [intros _|by eexists]. split; [done|].
      apply existsb_exists in Hz as (i & Hi & Hle).
      exists i. apply in_seq in Hi. apply Z.leb_le in Hle. split; [lia|done].
    + split.
      * intros [s' Hs']. by repeat case_match.
      * intros (_ & i & Hi & Hle).
        apply not_true_iff_false in Hz. destruct Hz. apply existsb_exists.
        exists i. split; [apply in_seq; lia|by apply Z.leb_le].
  - intros e s' He. apply (enumerateData_state dim c s s'). by rewrite He.
  - intros b s' Hb. apply (enumerateData_state dim c s s'). by rewrite Hb.
Qed.

(** ** No undefined behaviour *)

(** X3. On a new container whose stored cell count is the product of the
    grid sizes, no sequence of fewer than 2^64 calls indexes a vector out
    of bounds: every call returns or throws. *)
Theorem calls_defined g (buff_size : Z) s0 ops :
  is_array dim g → MultiGrid_new dim g buff_size = inl s0 → exact_cells s0 →
  Forall (op_typed dim) ops → Z.of_nat (length ops) < 2 ^ 64 →
  ∃ s, run ops s0 = Some s.
Proof.
  intros Hg Hnew Hexact Hty Hfits.
  pose proof (MultiGrid_new_wf dim g buff_size s0 Hg Hnew Hexact) as Hwf.
  destruct (run_wf default_data dim ops s0 Hwf Hty) as (s & Hrun & _).
  { apply MultiGrid_new_inl in Hnew as [_ ->]. simpl. lia. }
  by exists s.
Qed.

(** ** The order of storage ids *)

Lemma partial_index_insert g c i x n :
  (i < length c)%nat →
  partial_index g (<[i := x]> c) n
  = partial_index g c n
    + (if decide (i < n)%nat then (x - c !!! i) * weight g i else 0).
Proof.
  intros Hi. induction n as [|n IH]; [done|].
  rewrite !partial_index_S, IH. destruct (decide (i = n)) as [->|Hne].
  - rewrite list_lookup_total_insert_eq by done.
    rewrite decide_False, decide_True by lia. lia.
  - rewrite list_lookup_total_insert_ne by done.
    destruct (decide (i < n)%nat).
    + rewrite decide_True by lia. lia.
    + rewrite decide_False by lia. lia.
Qed.

(** X4. Dimension 0 varies fastest: for a valid grid size of at most 2^64
    cells, raising coordinate [i] of an in-range cell id by one, within
    range, raises its storage id by the product of the sizes before [i]
    (by 1 for [i = 0]). *)
Theorem linearize_next_coordinate g c i :
  valid_grid_size dim g → product g ≤ 2 ^ 64 → valid_cell_id g c →
  (i < dim)%nat → c !!! i + 1 < g !!! i →
  valid_cell_id g (<[i := c !!! i + 1]> c)
  ∧ linearize dim g (<[i := c !!! i + 1]> c)
    = linearize dim g c + weight g i
  ∧ weight g 0 = 1.
Proof.
  intros Hg Hfit Hc Hi Hlt. pose proof Hg as [Hlen Hpos].
  pose proof (valid_cell_id_length _ _ Hc) as Hlc.
  assert (valid_cell_id g (<[i := c !!! i + 1]> c)) as Hc'.
  { apply Forall2_same_length_lookup_2; [by rewrite length_insert|].
    intros j x y Hx Hy. pose proof (lookup_lt_Some _ _ _ Hy) as Hj.
    pose proof (valid_cell_id_lookup g c j Hc Hj) as Hcj.
    apply list_lookup_total_correct in Hy. subst y.
    destruct (decide (i = j)) as [->|Hne].
    - rewrite list_lookup_insert_eq in Hx by lia. simplify_eq. lia.
    - rewrite list_lookup_insert_ne in Hx by done.
      apply list_lookup_total_correct in Hx. by subst x. }
  split_and!; [done| |done].
  rewrite !(linearize_exact dim) by done. unfold linear_index.
  rewrite partial_index_insert, decide_True by lia. lia.
Qed.

(** ** The layout of the compressed buffer *)

Lemma concat_cons_at (B : nat → list Data) (j : nat) (d : Data) n :
  concat ((λ k, if decide (j = k) then d :: B k else B k) <$> seq 0 n)
  ≡ₚ (if decide (j < n)%nat then [d] else []) ++ concat (B <$> seq 0 n).
Proof.
  induction n as [|n IH]; [done|].
  rewrite !seq_S, !fmap_app, !concat_app, IH. simpl. rewrite !app_nil_r.
  destruct (decide (j = n)) as [->|Hne].
  - rewrite decide_False, decide_True by lia. simpl.
    by rewrite Permutation_middle.
  - destruct (decide (j < n)%nat).
    + by rewrite decide_True by lia.
    + by rewrite decide_False by lia.
Qed.

(** The buckets below [n], in order, hold the items whose storage id is
    below [n]. *)
Lemma concat_buckets g (P : list (list Z * Data)) n :
  (∀ p, p ∈ P → (storage_id dim g p.1 < n)%nat) →
  concat ((λ k, bucket dim g k P) <$> seq 0 n) ≡ₚ P.*2.
Proof.
  induction P as [|[c d] P IH]; intros Hsid.
  - clear. induction n as [|n IH]; [done|].
    by rewrite seq_S, fmap_app, concat_app, IH.
  - rewrite (list_fmap_ext _
      (λ k, if decide (storage_id dim g c = k)
            then d :: bucket dim g k P else bucket dim g k P)).
    2: { intros _ k _. apply bucket_cons. }
    rewrite concat_cons_at, decide_True.
    + rewrite IH; [done|]. intros p Hp. apply Hsid. by right.
    + apply (Hsid (c, d)). by left.
Qed.

Lemma mirrors_num_nonneg s :
  mirrors dim s →
  Forall (λ x, 0 ≤ x)
    (CompressedData.num_data_per_cell (compressed_data_ s)).
Proof.
  intros [(Hlen & _) Hk]. apply Forall_lookup. intros k x Hx.
  destruct (Hk k) as [Hnum _]; [rewrite <- Hlen; by eapply lookup_lt_Some|].
  rewrite Hnum in Hx. simplify_eq. lia.
Qed.

(** The segments, in the order of the storage ids, tile a prefix of the
    compressed data. *)
Lemma mirrors_take s k :
  mirrors dim s → (k ≤ Z.to_nat (num_cells_ s))%nat →
  let cd := compressed_data_ s in
  take (Z.to_nat (sum_list (take k (CompressedData.num_data_per_cell cd))))
    (CompressedData.data cd)
  = concat (segment cd <$> seq 0 k).
Proof.
  intros Hm. pose proof (mirrors_num_nonneg s Hm) as Hnn.
  destruct Hm as [(Hlnum & Hlfirst & _ & _ & Hfirst) Hk]. simpl.
  induction k as [|k IH]; intros Hle; [done|].
  destruct (Hk k) as [Hnum _]; [lia|].
  assert (k < Z.to_nat (num_cells_ s))%nat as Hlt by lia.
  rewrite seq_S, fmap_app, concat_app, <- IH by lia. simpl.
  rewrite app_nil_r, (sum_list_take_S _ _ _ Hnum). unfold segment.
  rewrite (list_lookup_total_correct _ _ _ Hnum).
  rewrite (list_lookup_total_correct _ _ _ (Hfirst k Hlt)).
  rewrite take_take_drop. f_equal.
  pose proof (sum_list_nonneg
    (take k (CompressedData.num_data_per_cell (compressed_data_ s)))
    ltac:(by apply Forall_take)). lia.
Qed.

Lemma wf_compressed_layout s :
  wf dim s → compressed_ s = true →
  let cd := compressed_data_ s in
  CompressedData.data cd
  = concat (segment cd <$> seq 0 (Z.to_nat (num_cells_ s)))
  ∧ CompressedData.data cd ≡ₚ RawData.data (raw_data_ s).
Proof.
  intros Hwf Hflag. pose proof (wf_mirrors _ _ Hwf Hflag) as Hm. simpl.
  assert (CompressedData.data (compressed_data_ s)
          = concat (segment (compressed_data_ s)
                      <$> seq 0 (Z.to_nat (num_cells_ s)))) as Htile.
  { rewrite <- (mirrors_take s _ Hm) by done.
    destruct Hm as [(Hlnum & _ & Hsum & Hldat & _) _].
    rewrite (take_ge (CompressedData.num_data_per_cell _)) by lia.
    rewrite Hsum, take_ge; [done|lia]. }
  split; [done|]. rewrite Htile.
  rewrite (list_fmap_ext _
    (λ k, bucket dim (grid_size_ s) k (raw_pairs (raw_data_ s)))).
  2: { intros i k [-> Hk]%lookup_seq. by apply Hm. }
  rewrite concat_buckets.
  - by rewrite raw_pairs_snd by apply Hwf.
  - intros p Hp. apply wf_storage_id_lt; [done|].
    apply (proj1 (Forall_forall _ _) (wf_raw_valid _ _ Hwf)).
    rewrite <- (raw_pairs_fst (raw_data_ s)) by apply Hwf.
    by apply list_elem_of_fmap_2.
Qed.

(** X5. On a container whose stored cell count is the product of the grid
    sizes, [compress] returns with the compressed data a permutation of
    the raw items: nothing is lost, duplicated or invented. *)
Theorem compress_permutation g ops s :
  is_array dim g → Forall (op_typed dim) ops →
  Z.of_nat (length ops) < 2 ^ 64 →
  history g ops s → exact_cells s →
  ∃ s', compress s = Ret () s'
    ∧ CompressedData.data (compressed_data_ s')
      ≡ₚ RawData.data (raw_data_ s).
Proof.
  intros Hg Hty Hfits Hhist Hexact.
  destruct (history_wf default_data dim g ops s) as [Hwf _]; [done..|].
  destruct (compress_wf default_data dim s Hwf)
    as (s' & Hc & Hwf' & _ & Hflag & _ & _ & Hraw).
  exists s'. split; [done|]. rewrite <- Hraw.
  by apply wf_compressed_layout.
Qed.



(** X7. On a compressed container whose stored cell count is the product
    of the grid sizes, the bounds returned by [enumerateData] lie inside
    the compressed data, and the views of two different cells do not
    overlap: the one with the smaller storage id ends before the other
    begins. *)
Theorem enumerateData_bounds g ops s c c' b b' :
  is_array dim g → Forall (op_typed dim) ops →
  Z.of_nat (length ops) < 2 ^ 64 →
  history g ops s → exact_cells s →
  enumerateData dim c s = Ret b s → enumerateData dim c' s = Ret b' s →
  is_array dim c → is_array dim c' →
  0 ≤ DataBounds.begin b ≤ DataBounds.end_ b
  ∧ DataBounds.end_ b
    ≤ Z.of_nat (length (CompressedData.data (compressed_data_ s)))
  ∧ (linearize dim g c < linearize dim g c' →
       DataBounds.end_ b ≤ DataBounds.begin b')
  ∧ (c ≠ c' →
       DataBounds.end_ b ≤ DataBounds.begin b'
       ∨ DataBounds.end_ b' ≤ DataBounds.begin b).
Proof.
  intros Hg Hty Hfits Hhist Hexact Hb Hb' Hac Hac'.
  destruct (history_wf default_data dim g ops s) as [Hwf Hgs]; [done..|].
  assert (compressed_ s = true) as Hflag.
  { unfold enumerateData in Hb. by destruct (compressed_ s). }
  assert (∀ c b, is_array dim c → enumerateData dim c s = Ret b s →
            valid_cell_id g c) as Hvalid.
  { intros c0 b0 Ha H0.
    apply (proj1 (invalid_cell_id_valid dim g c0 (proj1 Hg) Ha)).
    unfold enumerateData in H0. rewrite Hflag, Hgs in H0. simpl in H0.
    by destruct (invalid_cell_id dim g c0). }
  pose proof (Hvalid c b Hac Hb) as Hc.
  pose proof (Hvalid c' b' Hac' Hb') as Hc'.
  pose proof (wf_mirrors _ _ Hwf Hflag) as Hm.
  pose proof (mirrors_num_nonneg s Hm) as Hnn.
  destruct Hm as [(Hlnum & _ & Hsum & Hldat & Hfirst) Hk].
  assert (∀ c b, valid_cell_id g c → enumerateData dim c s = Ret b s →
            let k := storage_id dim g c in
            (k < Z.to_nat (num_cells_ s))%nat
            ∧ DataBounds.begin b = sum_list (take k (num_of s))
            ∧ DataBounds.end_ b = sum_list (take (S k) (num_of s))) as Hshape.
  { intros c0 b0 Hv H0. rewrite <- Hgs in Hv |- *.
    pose proof (wf_storage_id_lt dim s c0 Hwf Hv) as Hlt.
    destruct (enumerateData_wf dim c0 s Hwf Hflag Hv) as (f & n & Hf & Hn & Hr).
    rewrite Hr in H0. simplify_eq. simpl.
    rewrite (Hfirst _ Hlt) in Hf. simplify_eq.
    rewrite (sum_list_take_S _ _ _ Hn). done. }
  destruct (Hshape c b Hc Hb) as (Hlt & Hbeg & Hend).
  destruct (Hshape c' b' Hc' Hb') as (Hlt' & Hbeg' & Hend').
  rewrite Hbeg, Hend, Hbeg', Hend'.
  pose proof (sum_list_nonneg (take (storage_id dim g c) (num_of s))
                ltac:(by apply Forall_take)).
  pose proof (sum_list_take_mono (num_of s) (storage_id dim g c)
                (S (storage_id dim g c)) Hnn ltac:(lia)).
  pose proof (sum_list_take_le (num_of s) (S (storage_id dim g c)) Hnn).
  assert (∀ k k', (k < k')%nat →
            sum_list (take (S k) (num_of s)) ≤ sum_list (take k' (num_of s))) as Hord.
  { intros k k' Hkk. apply sum_list_take_mono; [done|lia]. }
  split_and!; [lia..| |].
  - intros Hlin. apply Hord. unfold storage_id.
    pose proof (wf_product_fits dim s Hwf) as Hfit. rewrite Hgs in Hfit.
    assert (valid_grid_size dim g) as Hvg by (rewrite <- Hgs; apply Hwf).
    pose proof (linearize_bounds dim g c Hvg Hc ltac:(lia)). lia.
  - intros Hne.
    destruct (decide (storage_id dim g c = storage_id dim g c')) as [Heq|Hk'].
    + destruct Hne. apply (storage_id_inj dim g); try done.
      * rewrite <- Hgs. apply Hwf.
      * pose proof (wf_product_fits dim s Hwf) as Hfit.
        rewrite Hgs in Hfit. lia.
    + destruct (decide (storage_id dim g c < storage_id dim g c')%nat).
      * left. by apply Hord.
      * right. apply Hord. lia.
Qed.

(** ** [clear], [add] and [compress] together *)

(** X8. On a container whose stored cell count is the product of the grid
    sizes, [clear] followed by [compress] leaves the compressed data empty
    and [enumerateData] returns an empty view for every in-range cell. *)
Theorem clear_compress_empty g ops s :
  is_array dim g → Forall (op_typed dim) ops →
  Z.of_nat (length ops) < 2 ^ 64 →
  history g ops s → exact_cells s →
  ∃ s1 s2, clear s = Ret () s1 ∧ compress s1 = Ret () s2
    ∧ CompressedData.data (compressed_data_ s2) = []
    ∧ ∀ c, valid_cell_id g c →
        ∃ b, enumerateData dim c s2 = Ret b s2
          ∧ DataBounds.begin b = DataBounds.end_ b
          ∧ view (compressed_data_ s2) b = [].
Proof.
  intros Hg Hty Hfits Hhist Hexact.
  destruct (history_wf default_data dim g ops s) as [Hwf Hgs]; [done..|].
  eexists. destruct (compress_wf default_data dim (mkMultiGrid
      (grid_size_ s) (num_cells_ s)
      (if compressed_ s then false else compressed_ s)
      (RawData.mk [] []) (compressed_data_ s)))
    as (s2 & Hc & Hwf2 & Hm & Hflag & Hgs2 & _ & Hraw).
  { by eapply clear_wf. }
  exists s2. split; [done|]. split; [exact Hc|]. simpl in *. split.
  - destruct Hm as [(_ & _ & _ & Hldat & _) _]. rewrite Hraw in Hldat.
    by apply nil_length_inv.
  - intros c Hv.
    destruct (enumerateData_mirrors dim c s2 Hwf2 Hflag)
      as (f & n & _ & _ & Hret & Hview & Hseg & Hlen).
    { by rewrite Hgs2, Hgs. }
    rewrite Hraw in Hseg, Hlen. exists (DataBounds.mk f (f + n)).
    split_and!; [done| |by rewrite Hview, Hseg].
    simpl. rewrite Hlen. unfold raw_pairs, items_of. simpl. lia.
Qed.

Lemma items_of_app c (P1 P2 : list (list Z * Data)) :
  items_of c (P1 ++ P2) = items_of c P1 ++ items_of c P2.
Proof. unfold items_of. by rewrite filter_app, fmap_app. Qed.

(** X9. Items accumulate: on a container whose stored cell count is the
    product of the grid sizes, compressed or not, an [add] that returns
    followed by [compress] makes [enumerateData] return, for the cell
    added to, the items it held before followed by the new item, and for
    every other in-range cell the items it held before. *)
Theorem add_compress_enumerate g ops s c (d : Data) s1 :
  is_array dim g → Forall (op_typed dim) ops →
  Z.of_nat (length ops) + 1 < 2 ^ 64 →
  history g ops s → exact_cells s →
  is_array dim c → add dim c d s = Ret () s1 →
  ∃ s2, compress s1 = Ret () s2
    ∧ ∀ c', valid_cell_id g c' →
        ∃ b, enumerateData dim c' s2 = Ret b s2
          ∧ view (compressed_data_ s2) b
            = items_of c' (raw_pairs (raw_data_ s))
              ++ (if decide (c = c') then [d] else []).
Proof.
  intros Hg Hty Hfits Hhist Hexact Hc Hadd.
  destruct (history_wf default_data dim g ops s) as [Hwf Hgs];
    [done|done|lia|done|done|].
  pose proof Hadd as [_ Hs1]%add_Ret.
  destruct (history_wf default_data dim g (ops ++ [Add c d]) s1)
    as [Hwf1 Hgs1].
  { done. }
  { apply Forall_app. split; [done|]. by apply Forall_singleton. }
  { rewrite length_app. simpl. lia. }
  { destruct Hhist as (b0 & s0 & Hnew & Hrun). exists b0, s0.
    split; [done|]. rewrite run_snoc. fold run. rewrite Hrun. simpl.
    by rewrite Hadd. }
  { rewrite Hs1. exact Hexact. }
  destruct (compress_wf default_data dim s1 Hwf1)
    as (s2 & Hcomp & Hwf2 & _ & Hflag & Hgs2 & _ & Hraw).
  exists s2. split; [done|]. intros c' Hv.
  destruct (enumerateData_mirrors dim c' s2 Hwf2 Hflag)
    as (f & n & _ & _ & Hret & Hview & Hseg & _).
  { by rewrite Hgs2, Hgs1. }
  exists (DataBounds.mk f (f + n)). split; [done|].
  rewrite Hview, Hseg, Hraw, Hs1. simpl.
  rewrite raw_pairs_snoc by apply Hwf.
  rewrite items_of_app, items_of_cons. by case_decide.
Qed.

(** ** Out-of-bounds indexing in [compress] *)

Lemma count_pass_None g cells num :
  Exists (λ c, (length num ≤ storage_id dim g c)%nat) cells →
  count_pass dim g cells num = None.
Proof.
  intros Hex. revert num Hex.
  induction cells as [|c cells IH]; intros num Hex; [by inversion Hex|].
  simpl. change (Z.to_nat (linearize dim g c)) with (storage_id dim g c).
  destruct (num !! storage_id dim g c) as [n|] eqn:Hn; [|done]. simpl.
  apply IH. inversion Hex as [? ? Hhd|? ? Htl]; subst.
  - apply lookup_lt_Some in Hn. lia.
  - by rewrite length_insert.
Qed.

(** [compress] on a container whose flag is clear indexes
    [num_data_per_cell] out of bounds as soon as the storage id of one
    buffered cell id is not below the length of the per-cell arrays. *)
Lemma compress_out_of_bounds s c :
  compressed_ s = false →
  c ∈ RawData.cell_ids (raw_data_ s) →
  (length (CompressedData.num_data_per_cell (compressed_data_ s))
   ≤ storage_id dim (grid_size_ s) c)%nat →
  compress s = Undefined.
Proof.
  intros Hflag Hin Hlen. unfold compress, compress_buffers.
  rewrite Hflag, count_pass_None; [done|].
  apply Exists_exists. exists c. split; [done|].
  by rewrite length_replicate.
Qed.

(** X10. If the cell count stored by the constructor is below the product
    of the grid sizes, itself at most 2^64, then the in-range cell whose
    linear index is the stored count is accepted by [add], and the
    [compress] that follows indexes out of bounds. *)
Theorem short_cell_count_out_of_bounds g (buff_size : Z) s0 (d : Data) :
  is_array dim g → MultiGrid_new dim g buff_size = inl s0 →
  num_cells_ s0 < product g → product g ≤ 2 ^ 64 →
  let c := delinearize dim g (num_cells_ s0) in
  valid_cell_id g c
  ∧ ∃ s1, add dim c d s0 = Ret () s1 ∧ compress s1 = Undefined.
Proof.
  intros Hg Hnew Hshort Hfit c.
  pose proof (MultiGrid_new_valid dim g buff_size s0 Hg Hnew) as Hvg.
  pose proof (delinearize_valid dim g (num_cells_ s0) Hvg) as Hv.
  split; [done|].
  pose proof Hnew as [_ Hs0]%MultiGrid_new_inl.
  assert (0 ≤ num_cells_ s0 < 2 ^ 64) as Hrange.
  { rewrite Hs0. simpl. apply to_size_t_range. }
  assert (linearize dim g c = num_cells_ s0) as Hlin.
  { rewrite (linearize_exact dim) by done.
    apply delinearize_linear_index; [done|lia]. }
  destruct (add dim c d s0) as [[] s1|e s1|] eqn:Hadd.
  - exists s1. split; [done|]. pose proof Hadd as [_ Hs1]%add_Ret.
    apply (compress_out_of_bounds s1 c).
    + by rewrite Hs1.
    + rewrite Hs1. simpl. apply elem_of_app. right. by left.
    + rewrite Hs1. simpl. unfold storage_id.
      rewrite (MultiGrid_new_grid_size dim g buff_size s0 Hnew), Hlin.
      rewrite Hs0. simpl. by rewrite length_replicate.
  - apply add_Throw in Hadd as (Hinv & _).
    rewrite (MultiGrid_new_grid_size dim g buff_size s0 Hnew) in Hinv.
    by rewrite (valid_cell_id_not_invalid dim g c (proj1 Hvg) Hv) in Hinv.
  - unfold add in Hadd. by case_match.
Qed.

End Further.

(** ** Whatever the cell count *)

Section Shaped.
Context {Data : Type} `{!VectorLimits Data}.
Variable default_data : Data.
Variable dim : nat.
Implicit Types (g c : list Z) (s : MultiGrid Data).

Local Abbreviation compress := (compress default_data dim).
Local Abbreviation history := (history default_data dim).
Local Abbreviation run := (run default_data dim).
Local Abbreviation call := (call default_data dim).
Local Abbreviation shaped := (shaped dim).
Local Abbreviation raw_size s := (length (RawData.data (raw_data_ s))).
Local Abbreviation in_bounds := (in_bounds dim).

Lemma count_pass_Some_bound g cells num num' :
  count_pass dim g cells num = Some num' →
  Forall (λ c, (storage_id dim g c < length num)%nat) cells.
Proof.
  revert num. induction cells as [|c cells IH]; intros num; [done|].
  simpl. change (Z.to_nat (linearize dim g c)) with (storage_id dim g c).
  destruct (num !! storage_id dim g c) as [n|] eqn:Hn; [|done]. simpl.
  intros Hrest%IH. rewrite length_insert in Hrest.
  apply Forall_cons. split; [by eapply lookup_lt_Some|done].
Qed.

Lemma compress_buffers_Some_bound s cd :
  compress_buffers default_data dim s = Some cd → in_bounds s.
Proof.
  unfold compress_buffers.
  destruct (count_pass _ _ _ _) as [num|] eqn:Hcount; [|done]. intros _.
  apply count_pass_Some_bound in Hcount. unfold in_bounds.
  by rewrite length_replicate in Hcount.
Qed.

Lemma compress_shaped s s' :
  shaped s → compress s = Ret () s' → shaped s' ∧ mirrors dim s'.
Proof.
  intros Hsh. unfold compress. destruct (compressed_ s) eqn:Hflag.
  - intros [= <-]. split; [done|]. by apply (shaped_mirrors _ _ Hsh).
  - destruct (compress_buffers default_data dim s) as [cd|] eqn:Hcd; [|done].
    intros [= <-].
    pose proof (compress_buffers_Some_bound s cd Hcd) as Hb.
    unfold in_bounds in Hb. rewrite (shaped_num _ _ Hsh) in Hb.
    destruct (compress_buffers_bounded default_data dim s)
      as (cd' & Hcd' & Hm); try apply Hsh; [done|].
    rewrite Hcd in Hcd'. simplify_eq. split; [|done].
    pose proof Hm as [(Hn & Hf & _) _].
    split; try apply Hsh; done.
Qed.

Lemma MultiGrid_new_shaped g (buff_size : Z) s :
  MultiGrid_new dim g buff_size = inl s → shaped s.
Proof.
  intros [_ ->]%MultiGrid_new_inl. split; simpl; try done.
  - by rewrite length_replicate.
  - by rewrite length_replicate.
Qed.

Lemma call_shaped o s s' :
  shaped s → Z.of_nat (raw_size s) + 1 < 2 ^ 64 → call o s = Some s' →
  shaped s' ∧ (raw_size s' ≤ raw_size s + 1)%nat.
Proof.
  intros Hsh Hfits. destruct o as [c d| | |c]; simpl.
  - destruct (add dim c d s) as [[] s1|e s1|] eqn:Hadd; simpl; [| |done].
    + intros [= <-]. apply add_Ret in Hadd as [_ ->]. simpl.
      split; [|rewrite length_app; simpl; lia].
      split; simpl; try apply Hsh; try done.
      * rewrite !length_app, (shaped_raw_length _ _ Hsh). done.
      * rewrite length_app. simpl. lia.
    + intros [= <-]. apply add_Throw in Hadd as (_ & _ & ->).
      split; [done|lia].
  - unfold clear. simpl. intros [= <-]. simpl. split; [|lia].
    split; simpl; try apply Hsh; try done. by destruct (compressed_ s).
  - destruct (compress s) as [[] s1|e s1|] eqn:Hc; simpl; [| |done].
    + intros [= <-]. pose proof (compress_shaped s s1 Hsh Hc) as [Hsh1 _].
      apply compress_Ret in Hc as (_ & _ & _ & ->). split; [done|lia].
    + by apply compress_not_Throw in Hc.
  - intros ->%enumerateData_state. split; [done|lia].
Qed.

Lemma run_shaped ops s s' :
  shaped s → Z.of_nat (raw_size s + length ops) < 2 ^ 64 →
  run ops s = Some s' → shaped s'.
Proof.
  revert s. induction ops as [|o ops IH]; intros s Hsh Hfits; simpl.
  - by intros [= <-].
  - fold call. destruct (call o s) as [s1|] eqn:Hcall; [|done]. simpl.
    simpl in Hfits.
    destruct (call_shaped o s s1 Hsh) as [Hsh1 Hsize]; [lia|done|].
    apply IH; [done|lia].
Qed.

Lemma history_shaped g ops s :
  Z.of_nat (length ops) < 2 ^ 64 → history g ops s →
  shaped s ∧ grid_size_ s = g.
Proof.
  intros Hfits (b & s0 & Hnew & Hrun).
  pose proof (MultiGrid_new_shaped g b s0 Hnew) as Hsh0.
  pose proof (run_shape _ _ _ _ _ Hrun) as [Hgs _].
  split.
  - apply (run_shaped ops s0 s Hsh0); [|done].
    apply MultiGrid_new_inl in Hnew as [_ ->]. simpl. lia.
  - rewrite Hgs. by eapply MultiGrid_new_grid_size.
Qed.

(** X11. Whatever the grid size, when [compress] returns on a container
    reached from the constructor, the compressed buffer is a counting
    sort of the raw buffer by storage id: the CSR invariants hold, and
    for every index [k] below [num_cells_] the count is the number of
    raw items with storage id [k] and the segment holds them in
    insertion order. *)
Theorem compress_sound g ops s s' :
  Z.of_nat (length ops) < 2 ^ 64 → history g ops s →
  compress s = Ret () s' →
  raw_data_ s' = raw_data_ s
  ∧ csr s'
  ∧ ∀ k, (k < Z.to_nat (num_cells_ s'))%nat →
      let cd := compressed_data_ s' in
      let items := bucket dim g k (raw_pairs (raw_data_ s)) in
      CompressedData.num_data_per_cell cd !! k = Some (Z.of_nat (length items))
      ∧ segment cd k = items.
Proof.
  intros Hfits Hhist Hc.
  destruct (history_shaped g ops s Hfits Hhist) as [Hsh Hgs].
  destruct (compress_shaped s s' Hsh Hc) as [_ [Hcsr Hk]].
  apply compress_Ret in Hc as (_ & Hgs' & _ & Hraw).
  split_and!; [done..|]. intros k Hlt. simpl.
  rewrite <- Hgs, <- Hgs', <- Hraw. by apply Hk.
Qed.

(** X12. On a container reached from the constructor, [compress] returns
    exactly when the flag is set or the storage id of every buffered cell
    id is below the length of the per-cell arrays; otherwise it indexes
    out of bounds.  It never throws. *)
Theorem compress_defined g ops s :
  Z.of_nat (length ops) < 2 ^ 64 → history g ops s →
  ((∃ s', compress s = Ret () s') ↔ compressed_ s = true ∨ in_bounds s)
  ∧ (compress s = Undefined ↔ compressed_ s = false ∧ ¬ in_bounds s)
  ∧ (∀ e s', compress s ≠ Throw e s').
Proof.
  intros Hfits Hhist.
  destruct (history_shaped g ops s Hfits Hhist) as [Hsh _].
  assert (in_bounds s → ∃ cd, compress_buffers default_data dim s = Some cd)
    as Hsome.
  { intros Hb. unfold in_bounds in Hb. rewrite (shaped_num _ _ Hsh) in Hb.
    destruct (compress_buffers_bounded default_data dim s)
      as (cd & Hcd & _); try apply Hsh; [done|]. by exists cd. }
  unfold compress. destruct (compressed_ s) eqn:Hflag.
  - split_and!; [| |done].
    + split; [by left|by eexists].
    + split; [done|by intros [? _]].
  - destruct (compress_buffers default_data dim s) as [cd|] eqn:Hcd.
    + pose proof (compress_buffers_Some_bound s cd Hcd) as Hb.
      split_and!; [| |done].
      * split; [by right|by eexists].
      * split; [done|]. by intros [_ Hnb].
    + split_and!; [| |done].
      * split; [by intros [? ?]|]. intros [?|Hb]; [done|].
        by destruct (Hsome Hb).
      * split; [|done]. intros _. split; [done|]. intros Hb.
        by destruct (Hsome Hb).
Qed.

(** X13. Every container reached from the constructor keeps its shape:
    the grid size and the stored cell count never change, the two raw
    sequences have the same length, and the count and offset arrays keep
    [num_cells_] entries. *)
Theorem container_shape g ops s :
  Z.of_nat (length ops) < 2 ^ 64 → history g ops s →
  grid_size_ s = g
  ∧ num_cells_ s = to_size_t (to_int (product g))
  ∧ length (RawData.cell_ids (raw_data_ s))
    = length (RawData.data (raw_data_ s))
  ∧ length (CompressedData.num_data_per_cell (compressed_data_ s))
    = Z.to_nat (num_cells_ s)
  ∧ length (CompressedData.first_data_id_per_cell (compressed_data_ s))
    = Z.to_nat (num_cells_ s).
Proof.
  intros Hfits Hhist.
  destruct (history_shaped g ops s Hfits Hhist) as [Hsh Hgs].
  destruct Hhist as (b & s0 & Hnew & Hrun).
  pose proof (run_shape _ _ _ _ _ Hrun) as [_ Hnc].
  split_and!; [done| |apply Hsh..].
  rewrite Hnc. by eapply MultiGrid_new_num_cells.
Qed.

Lemma call_buffer o s s' :
  length (RawData.cell_ids (raw_data_ s)) = raw_size s →
  call o s = Some s' →
  length (RawData.cell_ids (raw_data_ s')) = raw_size s'
  ∧ raw_pairs (raw_data_ s')
    = buffer_step dim (grid_size_ s) (raw_pairs (raw_data_ s)) o.
Proof.
  intros Hlen. destruct o as [c d| | |c]; simpl.
  - destruct (add dim c d s) as [[] s1|e s1|] eqn:Hadd; simpl; [| |done].
    + intros [= <-]. apply add_Ret in Hadd as [-> ->]. simpl.
      split; [by rewrite !length_app, Hlen|by apply raw_pairs_snoc].
    + intros [= <-]. by apply add_Throw in Hadd as (-> & _ & ->).
  - unfold clear. simpl. by intros [= <-].
  - destruct (compress s) as [[] s1|e s1|] eqn:Hc; simpl; [| |done].
    + intros [= <-]. apply compress_Ret in Hc as (_ & _ & _ & ->). done.
    + by apply compress_not_Throw in Hc.
  - by intros ->%enumerateData_state.
Qed.

Lemma run_buffer ops s s' :
  length (RawData.cell_ids (raw_data_ s)) = raw_size s →
  run ops s = Some s' →
  length (RawData.cell_ids (raw_data_ s')) = raw_size s'
  ∧ raw_pairs (raw_data_ s')
    = fold_left (buffer_step dim (grid_size_ s)) ops (raw_pairs (raw_data_ s)).
Proof.
  revert s. induction ops as [|o ops IH]; intros s Hlen; simpl.
  - by intros [= <-].
  - fold call. destruct (call o s) as [s1|] eqn:Hcall; [|done]. simpl.
    pose proof (call_shape _ _ _ _ _ Hcall) as (Hgs & _).
    destruct (call_buffer o s s1 Hlen Hcall) as [Hlen1 <-].
    rewrite <- Hgs. by apply IH.
Qed.

Lemma history_buffer g ops s :
  history g ops s →
  length (RawData.cell_ids (raw_data_ s)) = raw_size s
  ∧ raw_pairs (raw_data_ s) = buffered dim g ops.
Proof.
  intros (b & s0 & Hnew & Hrun).
  pose proof (MultiGrid_new_grid_size dim g b s0 Hnew) as Hgs.
  destruct (run_buffer ops s0 s) as [Hlen Hbuf]; [|done|].
  { by apply MultiGrid_new_inl in Hnew as [_ ->]. }
  split; [done|]. rewrite Hbuf, Hgs.
  by apply MultiGrid_new_inl in Hnew as [_ ->].
Qed.

(** X14. The raw buffer of a container reached from the constructor
    holds, in call order, the pairs of the [add] calls that returned
    since the last [clear]; [compress], [enumerateData] and an [add]
    that throws leave it alone. *)
Theorem raw_buffer_history g ops s :
  history g ops s →
  RawData.cell_ids (raw_data_ s) = (buffered dim g ops).*1
  ∧ RawData.data (raw_data_ s) = (buffered dim g ops).*2.
Proof.
  intros [Hlen <-]%history_buffer.
  by rewrite raw_pairs_fst, raw_pairs_snd.
Qed.

(** X15. On a new container whose stored cell count is the product of
    the grid sizes, after any sequence of calls that leaves the flag set
    [enumerateData] returns, for every in-range cell id, a view of
    exactly the items added with that cell id since the last [clear], in
    the order of the [add] calls. *)
Theorem enumerateData_history g ops s c :
  is_array dim g → Forall (op_typed dim) ops →
  Z.of_nat (length ops) < 2 ^ 64 →
  history g ops s → exact_cells s →
  compressed_after dim g ops → valid_cell_id g c →
  ∃ b, enumerateData dim c s = Ret b s
    ∧ view (compressed_data_ s) b = items_of c (buffered dim g ops).
Proof.
  intros Hg Hty Hfits Hhist Hexact Hafter Hv.
  destruct (history_wf default_data dim g ops s) as [Hwf Hgs]; [done..|].
  apply (history_flag default_data dim g ops s Hhist) in Hafter.
  destruct (history_buffer g ops s Hhist) as [_ Hbuf].
  destruct (enumerateData_mirrors dim c s Hwf Hafter)
    as (f & n & _ & _ & Hret & Hview & Hseg & _).
  { by rewrite Hgs. }
  exists (DataBounds.mk f (f + n)). split; [done|].
  by rewrite Hview, Hseg, Hbuf.
Qed.

End Shaped.
(** * Examples *)

(** Side conditions on concrete lists and numbers. *)
Ltac concrete :=
  repeat first
    [ progress cbn
    | done
    | lia
    | split
    | apply Forall_nil_2
    | apply Forall_cons_2
    | apply Forall2_nil_2
    | apply Forall2_cons_2 ].

(** ** The cell count on a 65536 x 65536 grid *)

(** C9. The constructor accepts the grid 65536 x 65536, whose cell count
    2^32 fits [size_t], and stores the cell count 0: the product is
    accumulated in an [int], which keeps its low 32 bits only.  The
    per-cell arrays are then empty. *)
Theorem num_cells_int_overflow :
  ∃ s, MultiGrid_new (Data:=Z) 2 int_overflow_grid 0 = inl s
    ∧ product int_overflow_grid = 2 ^ 32
    ∧ num_cells_ s = 0
    ∧ CompressedData.num_data_per_cell (compressed_data_ s) = []
    ∧ CompressedData.first_data_id_per_cell (compressed_data_ s) = []
    ∧ CompressedData.next_data_id_per_cell_buff (compressed_data_ s) = [].
Proof. eexists. split; [reflexivity|]. by vm_compute. Qed.

(** ** Small grids *)

Example linearize_3x4 :
  linearize 2 [3; 4] [2; 3] = 11 ∧ linearize 2 [3; 4] [0; 0] = 0
  ∧ linearize 2 [3; 4] [2; 0] = 2 ∧ linearize 2 [3; 4] [0; 1] = 3.
Proof. done. Qed.

Example basic_grouping :
  compress 0 2 basic_raw = Ret () basic_compressed
  ∧ CompressedData.data (compressed_data_ basic_compressed) = [10; 11; 20; 30]
  ∧ enumerateData 2 [0; 0] basic_compressed
    = Ret (DataBounds.mk 0 2) basic_compressed
  ∧ enumerateData 2 [1; 0] basic_compressed
    = Ret (DataBounds.mk 2 3) basic_compressed
  ∧ enumerateData 2 [0; 1] basic_compressed
    = Ret (DataBounds.mk 3 3) basic_compressed
  ∧ enumerateData 2 [1; 1] basic_compressed
    = Ret (DataBounds.mk 3 4) basic_compressed.
Proof. done. Qed.

Example invalidation :
  add 2 [0; 1] 7 basic_compressed = Ret () basic_added
  ∧ enumerateData 2 [0; 1] basic_added = Throw NotCompressed basic_added.
Proof. done. Qed.

Lemma linearize_bijection_witness :
  valid_grid_size 2 [3; 4] ∧ product [3; 4] ≤ 2 ^ 64
  ∧ (∀ c, valid_cell_id [3; 4] c →
       linearize 2 [3; 4] c = linear_index 2 [3; 4] c
       ∧ 0 ≤ linearize 2 [3; 4] c < product [3; 4])
  ∧ (∀ c c', valid_cell_id [3; 4] c → valid_cell_id [3; 4] c' →
       linearize 2 [3; 4] c = linearize 2 [3; 4] c' → c = c')
  ∧ (∀ n, 0 ≤ n < product [3; 4] →
       ∃ c, valid_cell_id [3; 4] c ∧ linearize 2 [3; 4] c = n).
Proof.
  assert (valid_grid_size 2 [3; 4]) as Hg by (unfold valid_grid_size; concrete).
  assert (product [3; 4] ≤ 2 ^ 64) as Hp by concrete.
  exact (conj Hg (conj Hp (linearize_bijection 2 [3; 4] Hg Hp))).
Defined.


Lemma add_spec_witness :
  add 2 [0; 1] 7 basic_compressed = Ret () basic_added
  ∧ RawData.data (raw_data_ basic_added)
    = RawData.data (raw_data_ basic_compressed) ++ [7]
  ∧ RawData.cell_ids (raw_data_ basic_added)
    = RawData.cell_ids (raw_data_ basic_compressed) ++ [[0; 1]]
  ∧ compressed_ basic_added = false
  ∧ compressed_data_ basic_added = compressed_data_ basic_compressed
  ∧ grid_size_ basic_added = grid_size_ basic_compressed
  ∧ num_cells_ basic_added = num_cells_ basic_compressed.
Proof.
  assert (add 2 [0; 1] 7 basic_compressed = Ret () basic_added) as Hadd
    by reflexivity.
  split; [exact Hadd|].
  exact (proj1 (proj2 (proj2 (add_spec 2 [0; 1] 7 basic_compressed)))
           basic_added Hadd).
Defined.

Lemma compress_idempotent_witness :
  compressed_ basic_compressed = true
  ∧ compress 0 2 basic_compressed = Ret () basic_compressed.
Proof.
  assert (compressed_ basic_compressed = true) as Hflag by reflexivity.
  split; [exact Hflag|].
  exact (proj2 (proj2 (compress_idempotent 0 2 basic_compressed)) Hflag).
Defined.

Lemma enumerateData_not_compressed_first_witness :
  compressed_ basic_raw = false
  ∧ (∃ i, (i < 2)%nat ∧ grid_size_ basic_raw !!! i ≤ [2; 0] !!! i)
  ∧ enumerateData 2 [2; 0] basic_raw = Throw NotCompressed basic_raw.
Proof.
  assert (compressed_ basic_raw = false) as Hflag by reflexivity.
  assert (∃ i, (i < 2)%nat ∧ grid_size_ basic_raw !!! i ≤ [2; 0] !!! i)
    as Hrange by (exists 0%nat; concrete).
  exact (conj Hflag (conj Hrange
    (enumerateData_not_compressed_first 2 [2; 0] basic_raw Hflag Hrange))).
Defined.

Lemma compress_csr_witness :
  is_array 2 basic_grid ∧ Forall (op_typed 2) basic_ops
  ∧ Z.of_nat (length basic_ops) < 2 ^ 64
  ∧ history 0 2 basic_grid basic_ops basic_raw ∧ exact_cells basic_raw
  ∧ ∃ s', compress 0 2 basic_raw = Ret () s'
      ∧ raw_data_ s' = raw_data_ basic_raw
      ∧ csr s'.
Proof.
  assert (is_array 2 basic_grid) as Hg by (unfold is_array; concrete).
  assert (Forall (op_typed (Data:=Z) 2) basic_ops) as Hty
    by (unfold basic_ops; concrete).
  assert (Z.of_nat (length basic_ops) < 2 ^ 64) as Hfits by concrete.
  assert (history 0 2 basic_grid basic_ops basic_raw) as Hhist
    by (exists 0, basic_new; split; reflexivity).
  assert (exact_cells basic_raw) as Hexact by reflexivity.
  split_and!; [done..|].
  exact (compress_csr 0 2 basic_grid basic_ops basic_raw
           Hg Hty Hfits Hhist Hexact).
Defined.

Lemma compress_stable_witness :
  is_array 2 basic_grid ∧ Forall (op_typed 2) basic_ops
  ∧ Z.of_nat (length basic_ops) < 2 ^ 64
  ∧ history 0 2 basic_grid basic_ops basic_raw ∧ exact_cells basic_raw
  ∧ ∃ s', compress 0 2 basic_raw = Ret () s'
      ∧ raw_data_ s' = raw_data_ basic_raw
      ∧ ∀ c, valid_cell_id basic_grid c →
          let cd := compressed_data_ s' in
          is_Some (CompressedData.first_data_id_per_cell cd
                     !! storage_id 2 basic_grid c)
          ∧ is_Some (CompressedData.num_data_per_cell cd
                       !! storage_id 2 basic_grid c)
          ∧ segment cd (storage_id 2 basic_grid c)
            = items_of c (raw_pairs (raw_data_ basic_raw)).
Proof.
  assert (is_array 2 basic_grid) as Hg by (unfold is_array; concrete).
  assert (Forall (op_typed (Data:=Z) 2) basic_ops) as Hty
    by (unfold basic_ops; concrete).
  assert (Z.of_nat (length basic_ops) < 2 ^ 64) as Hfits by concrete.
  assert (history 0 2 basic_grid basic_ops basic_raw) as Hhist
    by (exists 0, basic_new; split; reflexivity).
  assert (exact_cells basic_raw) as Hexact by reflexivity.
  split_and!; [done..|].
  exact (compress_stable 0 2 basic_grid basic_ops basic_raw
           Hg Hty Hfits Hhist Hexact).
Defined.

Lemma enumerateData_after_adds_witness :
  is_array 2 basic_grid ∧ MultiGrid_new 2 basic_grid 0 = inl basic_new
  ∧ exact_cells basic_new
  ∧ Forall (λ p, is_array 2 p.1) basic_adds
  ∧ Z.of_nat (length basic_adds) < 2 ^ 64
  ∧ add_all 2 basic_adds basic_new = Ret () basic_raw
  ∧ ∃ s2, compress 0 2 basic_raw = Ret () s2
      ∧ ∀ c, valid_cell_id basic_grid c →
          ∃ bounds,
            enumerateData 2 c s2 = Ret bounds s2
            ∧ view (compressed_data_ s2) bounds ≡ₚ items_of c basic_adds
            ∧ CompressedData.num_data_per_cell (compressed_data_ s2)
                !! storage_id 2 basic_grid c
              = Some (Z.of_nat (length (view (compressed_data_ s2) bounds))).
Proof.
  assert (is_array 2 basic_grid) as Hg by (unfold is_array; concrete).
  assert (MultiGrid_new 2 basic_grid 0 = inl basic_new) as Hnew by reflexivity.
  assert (exact_cells basic_new) as Hexact by reflexivity.
  assert (Forall (λ p : list Z * Z, is_array 2 p.1) basic_adds) as Hty
    by (unfold basic_adds; concrete).
  assert (Z.of_nat (length basic_adds) < 2 ^ 64) as Hfits by concrete.
  assert (add_all 2 basic_adds basic_new = Ret () basic_raw) as Hadds
    by reflexivity.
  split_and!; [done..|].
  exact (enumerateData_after_adds 0 2 basic_grid 0 basic_new basic_adds
           basic_raw Hg Hnew Hexact Hty Hfits Hadds).
Defined.

Lemma enumerateData_spec_witness :
  is_array 2 basic_grid ∧ Forall (op_typed 2) (basic_ops ++ [Compress])
  ∧ Z.of_nat (length (basic_ops ++ [Compress])) < 2 ^ 64
  ∧ history 0 2 basic_grid (basic_ops ++ [Compress]) basic_compressed
  ∧ exact_cells basic_compressed ∧ compressed_ basic_compressed = true
  ∧ valid_cell_id basic_grid [0; 0]
  ∧ ((∃ s', enumerateData 2 [0; 0] basic_compressed = Throw NotCompressed s')
     ↔ compressed_ basic_compressed = false)
  ∧ (compressed_ basic_compressed = false
     ↔ ¬ compressed_after 2 basic_grid (basic_ops ++ [Compress]))
  ∧ ∃ first num,
      CompressedData.first_data_id_per_cell (compressed_data_ basic_compressed)
        !! storage_id 2 basic_grid [0; 0] = Some first
      ∧ CompressedData.num_data_per_cell (compressed_data_ basic_compressed)
        !! storage_id 2 basic_grid [0; 0] = Some num
      ∧ enumerateData 2 [0; 0] basic_compressed
        = Ret (DataBounds.mk first (first + num)) basic_compressed.
Proof.
  assert (is_array 2 basic_grid) as Hg by (unfold is_array; concrete).
  assert (Forall (op_typed (Data:=Z) 2) (basic_ops ++ [Compress])) as Hty
    by (unfold basic_ops; concrete).
  assert (Z.of_nat (length (basic_ops ++ [Compress])) < 2 ^ 64) as Hfits
    by concrete.
  assert (history 0 2 basic_grid (basic_ops ++ [Compress]) basic_compressed)
    as Hhist by (exists 0, basic_new; split; reflexivity).
  assert (exact_cells basic_compressed) as Hexact by reflexivity.
  assert (compressed_ basic_compressed = true) as Hflag by reflexivity.
  assert (valid_cell_id basic_grid [0; 0]) as Hc
    by (unfold valid_cell_id; concrete).
  destruct (enumerateData_spec 0 2 basic_grid (basic_ops ++ [Compress])
              basic_compressed [0; 0] Hg Hty Hfits Hhist)
    as (Hthrow & Hstale & Hret).
  split_and!; [done..|]. exact (Hret Hexact Hflag Hc).
Defined.

(** ** Grids with more cells than [size_t] can count *)


(** C3 as first stated fails on the grid 2^63 x 4: the valid cell ids
    (0,0) and (0,2) get the same storage id 0, and the storage id of
    (0,2) is not the sum 2 * 2^63. *)
Lemma linearize_bijection_counterexample :
  valid_grid_size 2 huge_grid
  ∧ valid_cell_id huge_grid [0; 0] ∧ valid_cell_id huge_grid [0; 2]
  ∧ linearize 2 huge_grid [0; 0] = 0 ∧ linearize 2 huge_grid [0; 2] = 0
  ∧ [0; 0] ≠ [0; 2]
  ∧ linear_index 2 huge_grid [0; 2] = 2 ^ 64.
Proof. unfold valid_grid_size, valid_cell_id, huge_grid. concrete. Qed.

(** C1 as first stated fails on the grid (2^63 + 1) x 2: the cell ids
    (1,0) and (2^63,1) are in range and share the storage id 1, so after
    one [add] to each and [compress], [enumerateData((1,0))] returns a
    view of both items. *)
Lemma enumerateData_after_adds_counterexample :
  is_array 2 wrapped_grid
  ∧ MultiGrid_new 2 wrapped_grid 0 = inl wrapped_new
  ∧ Forall (λ p, is_array 2 p.1) wrapped_adds
  ∧ add_all 2 wrapped_adds wrapped_new = Ret () wrapped_raw
  ∧ compress 0 2 wrapped_raw = Ret () wrapped_compressed
  ∧ valid_cell_id wrapped_grid [1; 0]
  ∧ enumerateData 2 [1; 0] wrapped_compressed
    = Ret (DataBounds.mk 0 2) wrapped_compressed
  ∧ view (compressed_data_ wrapped_compressed) (DataBounds.mk 0 2) = [10; 20]
  ∧ items_of [1; 0] wrapped_adds = [10]
  ∧ ¬ ([10; 20] ≡ₚ [10]).
Proof.
  unfold is_array, valid_cell_id, wrapped_grid, wrapped_adds.
  split_and!; try by concrete.
  intros Hperm%Permutation_length. done.
Qed.

(** C2 as first stated fails on the grid 2^63 x 4: its per-cell arrays
    are empty, so after [add((0,0), 7)] the count pass of [compress]
    indexes [num_data_per_cell[0]] outside the array. *)
Lemma compress_csr_counterexample :
  is_array 2 huge_grid
  ∧ MultiGrid_new 2 huge_grid 0 = inl huge_new
  ∧ CompressedData.num_data_per_cell (compressed_data_ huge_new) = []
  ∧ is_array 2 [0; 0]
  ∧ add 2 [0; 0] 7 huge_new = Ret () huge_raw
  ∧ linearize 2 huge_grid [0; 0] = 0
  ∧ compress 0 2 huge_raw = Undefined.
Proof. unfold is_array, huge_grid. split_and!; by concrete. Qed.

(** C8 as first stated fails on the grid 2^32 x 2^32: its per-cell
    arrays are empty, so after [add((1,1), 7)] the count pass of
    [compress] indexes [num_data_per_cell[2^32 + 1]] outside the array. *)
Lemma compress_stable_counterexample :
  is_array 2 square_grid
  ∧ MultiGrid_new 2 square_grid 0 = inl square_new
  ∧ CompressedData.num_data_per_cell (compressed_data_ square_new) = []
  ∧ is_array 2 [1; 1]
  ∧ add 2 [1; 1] 7 square_new = Ret () square_raw
  ∧ linearize 2 square_grid [1; 1] = 2 ^ 32 + 1
  ∧ compress 0 2 square_raw = Undefined.
Proof. unfold is_array, square_grid. split_and!; by concrete. Qed.

(** C6 as first stated fails on the grid 2^63 x 4: after [compress] the
    flag is set and (0,0) is in range, but [enumerateData((0,0))] indexes
    [first_data_id_per_cell[0]] outside the empty array.  And on the
    2 x 2 grid an [add] that throws after the last [compress] leaves the
    flag set, so that [enumerateData] still returns. *)
Lemma enumerateData_spec_counterexample :
  (is_array 2 huge_grid
   ∧ history 0 2 huge_grid [Compress] huge_compressed
   ∧ compressed_ huge_compressed = true
   ∧ valid_cell_id huge_grid [0; 0]
   ∧ CompressedData.first_data_id_per_cell (compressed_data_ huge_compressed)
     = []
   ∧ enumerateData 2 [0; 0] huge_compressed = Undefined)
  ∧ (history 0 2 basic_grid (basic_ops ++ [Compress; Add [2; 0] 7])
       basic_compressed
     ∧ add 2 [2; 0] 7 basic_compressed = Throw OutOfRange basic_compressed
     ∧ enumerateData 2 [0; 0] basic_compressed
       = Ret (DataBounds.mk 0 2) basic_compressed).
Proof.
  unfold is_array, valid_cell_id, huge_grid. split_and!; try by concrete.
  - exists 0, huge_new. by split.
  - exists 0, basic_new. by split.
Qed.

(** ** Further properties on the example containers *)

Lemma stored_cell_count_witness :
  is_array 2 basic_grid ∧ MultiGrid_new 2 basic_grid 0 = inl basic_new
  ∧ num_cells_ basic_new = to_size_t (to_int (product basic_grid))
  ∧ (exact_cells basic_new
     ↔ product basic_grid < 2 ^ 31
       ∨ 2 ^ 64 - 2 ^ 31 ≤ product basic_grid < 2 ^ 64).
Proof.
  assert (is_array 2 basic_grid) as Hg by (unfold is_array; concrete).
  assert (MultiGrid_new 2 basic_grid 0 = inl basic_new) as Hnew by reflexivity.
  exact (conj Hg (conj Hnew (stored_cell_count 2 basic_grid 0 basic_new Hg Hnew))).
Defined.

Lemma enumerateData_errors_witness :
  compressed_ basic_compressed = true
  ∧ (∃ i, (i < 2)%nat ∧ grid_size_ basic_compressed !!! i ≤ [2; 0] !!! i)
  ∧ ∃ s', enumerateData 2 [2; 0] basic_compressed = Throw OutOfRange s'.
Proof.
  assert (compressed_ basic_compressed = true) as Hflag by reflexivity.
  assert (∃ i, (i < 2)%nat ∧ grid_size_ basic_compressed !!! i ≤ [2; 0] !!! i)
    as Hrange by (exists 0%nat; concrete).
  repeat (split; [assumption|]).
  exact (proj2 (proj1 (enumerateData_errors 2 [2; 0] basic_compressed))
           (conj Hflag Hrange)).
Defined.

Lemma calls_defined_witness :
  let ops := basic_ops ++ [Compress; EnumerateData [0; 0]; Clear; Compress] in
  is_array 2 basic_grid ∧ MultiGrid_new 2 basic_grid 0 = inl basic_new
  ∧ exact_cells basic_new ∧ Forall (op_typed 2) ops
  ∧ Z.of_nat (length ops) < 2 ^ 64
  ∧ ∃ s, run 0 2 ops basic_new = Some s.
Proof.
  intros ops.
  assert (is_array 2 basic_grid) as Hg by (unfold is_array; concrete).
  assert (MultiGrid_new 2 basic_grid 0 = inl basic_new) as Hnew by reflexivity.
  assert (exact_cells basic_new) as Hexact by reflexivity.
  assert (Forall (op_typed (Data:=Z) 2) ops) as Hty
    by (unfold ops, basic_ops; concrete).
  assert (Z.of_nat (length ops) < 2 ^ 64) as Hfits by concrete.
  repeat (split; [assumption|]).
  exact (calls_defined 0 2 basic_grid 0 basic_new ops Hg Hnew Hexact Hty Hfits).
Defined.

Lemma linearize_next_coordinate_witness :
  valid_grid_size 2 [3; 4] ∧ product [3; 4] ≤ 2 ^ 64
  ∧ valid_cell_id [3; 4] [1; 2] ∧ (1 < 2)%nat ∧ [1; 2] !!! 1%nat + 1 < [3; 4] !!! 1%nat
  ∧ valid_cell_id [3; 4] (<[1%nat := [1; 2] !!! 1%nat + 1]> [1; 2])
  ∧ linearize 2 [3; 4] (<[1%nat := [1; 2] !!! 1%nat + 1]> [1; 2])
    = linearize 2 [3; 4] [1; 2] + weight [3; 4] 1
  ∧ weight [3; 4] 0 = 1.
Proof.
  assert (valid_grid_size 2 [3; 4]) as Hg by (unfold valid_grid_size; concrete).
  assert (product [3; 4] ≤ 2 ^ 64) as Hp by concrete.
  assert (valid_cell_id [3; 4] [1; 2]) as Hc by (unfold valid_cell_id; concrete).
  assert (1 < 2)%nat as Hi by lia.
  assert ([1; 2] !!! 1%nat + 1 < [3; 4] !!! 1%nat) as Hlt by concrete.
  repeat (split; [assumption|]).
  exact (linearize_next_coordinate 2 [3; 4] [1; 2] 1 Hg Hp Hc Hi Hlt).
Defined.

Lemma compress_permutation_witness :
  is_array 2 basic_grid ∧ Forall (op_typed 2) basic_ops
  ∧ Z.of_nat (length basic_ops) < 2 ^ 64
  ∧ history 0 2 basic_grid basic_ops basic_raw ∧ exact_cells basic_raw
  ∧ ∃ s', compress 0 2 basic_raw = Ret () s'
      ∧ CompressedData.data (compressed_data_ s')
        ≡ₚ RawData.data (raw_data_ basic_raw).
Proof.
  assert (is_array 2 basic_grid) as Hg by (unfold is_array; concrete).
  assert (Forall (op_typed (Data:=Z) 2) basic_ops) as Hty
    by (unfold basic_ops; concrete).
  assert (Z.of_nat (length basic_ops) < 2 ^ 64) as Hfits by concrete.
  assert (history 0 2 basic_grid basic_ops basic_raw) as Hhist
    by (exists 0, basic_new; split; reflexivity).
  assert (exact_cells basic_raw) as Hexact by reflexivity.
  repeat (split; [assumption|]).
  exact (compress_permutation 0 2 basic_grid basic_ops basic_raw
           Hg Hty Hfits Hhist Hexact).
Defined.


Lemma enumerateData_bounds_witness :
  let ops := basic_ops ++ [Compress] in
  let b := DataBounds.mk 0 2 in
  let b' := DataBounds.mk 3 4 in
  is_array 2 basic_grid ∧ Forall (op_typed 2) ops
  ∧ Z.of_nat (length ops) < 2 ^ 64
  ∧ history 0 2 basic_grid ops basic_compressed
  ∧ exact_cells basic_compressed
  ∧ enumerateData 2 [0; 0] basic_compressed = Ret b basic_compressed
  ∧ enumerateData 2 [1; 1] basic_compressed = Ret b' basic_compressed
  ∧ is_array 2 [0; 0] ∧ is_array 2 [1; 1]
  ∧ 0 ≤ DataBounds.begin b ≤ DataBounds.end_ b
  ∧ DataBounds.end_ b
    ≤ Z.of_nat (length (CompressedData.data (compressed_data_ basic_compressed)))
  ∧ (linearize 2 basic_grid [0; 0] < linearize 2 basic_grid [1; 1] →
       DataBounds.end_ b ≤ DataBounds.begin b')
  ∧ ([0; 0] ≠ [1; 1] →
       DataBounds.end_ b ≤ DataBounds.begin b'
       ∨ DataBounds.end_ b' ≤ DataBounds.begin b).
Proof.
  intros ops b b'.
  assert (is_array 2 basic_grid) as Hg by (unfold is_array; concrete).
  assert (Forall (op_typed (Data:=Z) 2) ops) as Hty
    by (unfold ops, basic_ops; concrete).
  assert (Z.of_nat (length ops) < 2 ^ 64) as Hfits by concrete.
  assert (history 0 2 basic_grid ops basic_compressed) as Hhist
    by (exists 0, basic_new; split; reflexivity).
  assert (exact_cells basic_compressed) as Hexact by reflexivity.
  assert (enumerateData 2 [0; 0] basic_compressed = Ret b basic_compressed)
    as Hb by reflexivity.
  assert (enumerateData 2 [1; 1] basic_compressed = Ret b' basic_compressed)
    as Hb' by reflexivity.
  assert (is_array 2 [0; 0]) as Hc by (unfold is_array; concrete).
  assert (is_array 2 [1; 1]) as Hc' by (unfold is_array; concrete).
  repeat (split; [assumption|]).
  exact (enumerateData_bounds 0 2 basic_grid ops basic_compressed
           [0; 0] [1; 1] b b' Hg Hty Hfits Hhist Hexact Hb Hb' Hc Hc').
Defined.

Lemma clear_compress_empty_witness :
  let ops := basic_ops ++ [Compress] in
  is_array 2 basic_grid ∧ Forall (op_typed 2) ops
  ∧ Z.of_nat (length ops) < 2 ^ 64
  ∧ history 0 2 basic_grid ops basic_compressed
  ∧ exact_cells basic_compressed
  ∧ ∃ s1 s2, clear basic_compressed = Ret () s1 ∧ compress 0 2 s1 = Ret () s2
      ∧ CompressedData.data (compressed_data_ s2) = []
      ∧ ∀ c, valid_cell_id basic_grid c →
          ∃ b, enumerateData 2 c s2 = Ret b s2
            ∧ DataBounds.begin b = DataBounds.end_ b
            ∧ view (compressed_data_ s2) b = [].
Proof.
  intros ops.
  assert (is_array 2 basic_grid) as Hg by (unfold is_array; concrete).
  assert (Forall (op_typed (Data:=Z) 2) ops) as Hty
    by (unfold ops, basic_ops; concrete).
  assert (Z.of_nat (length ops) < 2 ^ 64) as Hfits by concrete.
  assert (history 0 2 basic_grid ops basic_compressed) as Hhist
    by (exists 0, basic_new; split; reflexivity).
  assert (exact_cells basic_compressed) as Hexact by reflexivity.
  repeat (split; [assumption|]).
  exact (clear_compress_empty 0 2 basic_grid ops basic_compressed
           Hg Hty Hfits Hhist Hexact).
Defined.

Lemma add_compress_enumerate_witness :
  let ops := basic_ops ++ [Compress] in
  is_array 2 basic_grid ∧ Forall (op_typed 2) ops
  ∧ Z.of_nat (length ops) + 1 < 2 ^ 64
  ∧ history 0 2 basic_grid ops basic_compressed
  ∧ exact_cells basic_compressed
  ∧ is_array 2 [0; 1]
  ∧ add 2 [0; 1] 7 basic_compressed = Ret () basic_added
  ∧ ∃ s2, compress 0 2 basic_added = Ret () s2
      ∧ ∀ c', valid_cell_id basic_grid c' →
          ∃ b, enumerateData 2 c' s2 = Ret b s2
            ∧ view (compressed_data_ s2) b
              = items_of c' (raw_pairs (raw_data_ basic_compressed))
                ++ (if decide ([0; 1] = c') then [7] else []).
Proof.
  intros ops.
  assert (is_array 2 basic_grid) as Hg by (unfold is_array; concrete).
  assert (Forall (op_typed (Data:=Z) 2) ops) as Hty
    by (unfold ops, basic_ops; concrete).
  assert (Z.of_nat (length ops) + 1 < 2 ^ 64) as Hfits by concrete.
  assert (history 0 2 basic_grid ops basic_compressed) as Hhist
    by (exists 0, basic_new; split; reflexivity).
  assert (exact_cells basic_compressed) as Hexact by reflexivity.
  assert (is_array 2 [0; 1]) as Hc by (unfold is_array; concrete).
  assert (add 2 [0; 1] 7 basic_compressed = Ret () basic_added) as Hadd
    by reflexivity.
  repeat (split; [assumption|]).
  exact (add_compress_enumerate 0 2 basic_grid ops basic_compressed
           [0; 1] 7 basic_added Hg Hty Hfits Hhist Hexact Hc Hadd).
Defined.

Lemma short_cell_count_out_of_bounds_witness :
  is_array 2 int_overflow_grid
  ∧ MultiGrid_new 2 int_overflow_grid 0 = inl int_overflow_new
  ∧ num_cells_ int_overflow_new < product int_overflow_grid
  ∧ product int_overflow_grid ≤ 2 ^ 64
  ∧ let c := delinearize 2 int_overflow_grid (num_cells_ int_overflow_new) in
    valid_cell_id int_overflow_grid c
    ∧ ∃ s1, add 2 c 7 int_overflow_new = Ret () s1
        ∧ compress 0 2 s1 = Undefined.
Proof.
  assert (is_array 2 int_overflow_grid) as Hg by (unfold is_array; concrete).
  assert (MultiGrid_new 2 int_overflow_grid 0 = inl int_overflow_new) as Hnew
    by reflexivity.
  assert (num_cells_ int_overflow_new < product int_overflow_grid) as Hshort
    by concrete.
  assert (product int_overflow_grid ≤ 2 ^ 64) as Hfit by concrete.
  repeat (split; [assumption|]).
  exact (short_cell_count_out_of_bounds 0 2 int_overflow_grid 0
           int_overflow_new 7 Hg Hnew Hshort Hfit).
Defined.

Lemma compress_sound_witness :
  Z.of_nat (length wrapped_ops) < 2 ^ 64
  ∧ history 0 2 wrapped_grid wrapped_ops wrapped_raw
  ∧ compress 0 2 wrapped_raw = Ret () wrapped_compressed
  ∧ raw_data_ wrapped_compressed = raw_data_ wrapped_raw
  ∧ csr wrapped_compressed
  ∧ ∀ k, (k < Z.to_nat (num_cells_ wrapped_compressed))%nat →
      let cd := compressed_data_ wrapped_compressed in
      let items := bucket 2 wrapped_grid k (raw_pairs (raw_data_ wrapped_raw)) in
      CompressedData.num_data_per_cell cd !! k = Some (Z.of_nat (length items))
      ∧ segment cd k = items.
Proof.
  assert (Z.of_nat (length wrapped_ops) < 2 ^ 64) as Hfits by concrete.
  assert (history 0 2 wrapped_grid wrapped_ops wrapped_raw) as Hhist
    by (exists 0, wrapped_new; split; reflexivity).
  assert (compress 0 2 wrapped_raw = Ret () wrapped_compressed) as Hc
    by reflexivity.
  repeat (split; [assumption|]).
  exact (compress_sound 0 2 wrapped_grid wrapped_ops wrapped_raw
           wrapped_compressed Hfits Hhist Hc).
Defined.

Lemma compress_defined_witness :
  Z.of_nat (length [Add [0; 0] 7]) < 2 ^ 64
  ∧ history 0 2 huge_grid [Add [0; 0] 7] huge_raw
  ∧ ((∃ s', compress 0 2 huge_raw = Ret () s')
     ↔ compressed_ huge_raw = true ∨ in_bounds 2 huge_raw)
  ∧ (compress 0 2 huge_raw = Undefined
     ↔ compressed_ huge_raw = false ∧ ¬ in_bounds 2 huge_raw)
  ∧ (∀ e s', compress 0 2 huge_raw ≠ Throw e s').
Proof.
  assert (Z.of_nat (length [Add (Data:=Z) [0; 0] 7]) < 2 ^ 64) as Hfits
    by concrete.
  assert (history 0 2 huge_grid [Add [0; 0] 7] huge_raw) as Hhist
    by (exists 0, huge_new; split; reflexivity).
  repeat (split; [assumption|]).
  exact (compress_defined 0 2 huge_grid [Add [0; 0] 7] huge_raw Hfits Hhist).
Defined.

Lemma container_shape_witness :
  Z.of_nat (length basic_ops) < 2 ^ 64
  ∧ history 0 2 basic_grid basic_ops basic_raw
  ∧ grid_size_ basic_raw = basic_grid
  ∧ num_cells_ basic_raw = to_size_t (to_int (product basic_grid))
  ∧ length (RawData.cell_ids (raw_data_ basic_raw))
    = length (RawData.data (raw_data_ basic_raw))
  ∧ length (CompressedData.num_data_per_cell (compressed_data_ basic_raw))
    = Z.to_nat (num_cells_ basic_raw)
  ∧ length (CompressedData.first_data_id_per_cell (compressed_data_ basic_raw))
    = Z.to_nat (num_cells_ basic_raw).
Proof.
  assert (Z.of_nat (length basic_ops) < 2 ^ 64) as Hfits by concrete.
  assert (history 0 2 basic_grid basic_ops basic_raw) as Hhist
    by (exists 0, basic_new; split; reflexivity).
  repeat (split; [assumption|]).
  exact (container_shape 0 2 basic_grid basic_ops basic_raw Hfits Hhist).
Defined.

Lemma raw_buffer_history_witness :
  let ops := basic_ops ++ [Compress; Add [2; 0] 7; EnumerateData [0; 0]] in
  history 0 2 basic_grid ops basic_compressed
  ∧ RawData.cell_ids (raw_data_ basic_compressed) = (buffered 2 basic_grid ops).*1
  ∧ RawData.data (raw_data_ basic_compressed) = (buffered 2 basic_grid ops).*2.
Proof.
  intros ops.
  assert (history 0 2 basic_grid ops basic_compressed) as Hhist
    by (exists 0, basic_new; split; reflexivity).
  split; [done|].
  exact (raw_buffer_history 0 2 basic_grid ops basic_compressed Hhist).
Defined.

Lemma enumerateData_history_witness :
  let ops := basic_ops ++ [Compress] in
  is_array 2 basic_grid ∧ Forall (op_typed 2) ops
  ∧ Z.of_nat (length ops) < 2 ^ 64
  ∧ history 0 2 basic_grid ops basic_compressed
  ∧ exact_cells basic_compressed
  ∧ compressed_after 2 basic_grid ops ∧ valid_cell_id basic_grid [0; 0]
  ∧ ∃ b, enumerateData 2 [0; 0] basic_compressed = Ret b basic_compressed
      ∧ view (compressed_data_ basic_compressed) b
        = items_of [0; 0] (buffered 2 basic_grid ops).
Proof.
  intros ops.
  assert (is_array 2 basic_grid) as Hg by (unfold is_array; concrete).
  assert (Forall (op_typed (Data:=Z) 2) ops) as Hty
    by (unfold ops, basic_ops; concrete).
  assert (Z.of_nat (length ops) < 2 ^ 64) as Hfits by concrete.
  assert (history 0 2 basic_grid ops basic_compressed) as Hhist
    by (exists 0, basic_new; split; reflexivity).
  assert (exact_cells basic_compressed) as Hexact by reflexivity.
  assert (compressed_after 2 basic_grid ops) as Hafter
    by (exists basic_ops, []; split; [reflexivity|constructor]).
  assert (valid_cell_id basic_grid [0; 0]) as Hc
    by (unfold valid_cell_id; concrete).
  repeat (split; [assumption|]).
  exact (enumerateData_history 0 2 basic_grid ops basic_compressed [0; 0]
           Hg Hty Hfits Hhist Hexact Hafter Hc).
Defined.
